(** * Cursor validity, iteration set-up and key-order checks of the btree
      layer (src/btree/bt_traits_details.c)

    A shallow embedding of the three page-layout strategies (fixed-length
    column store, variable-length column store, row store) and the
    properties their callers rely on.

    The C functions work on a cursor through a pointer, write their
    results through the out-parameters [updp] and [valid], and call into
    the rest of the engine (visibility resolver, collator, buffer and
    scratch-memory management).  They are embedded as computations over an
    explicit [world]: the session, the cursor with the page it references,
    and the two caller-owned cells.  The rest of the engine is the
    interface [Engine]. *)

From Stdlib Require Import ZArith List String Bool Lia.
From Stdlib Require Import Strings.Byte.
From Stdlib Require Import Sorting.Sorted.
Import ListNotations.

Local Open Scope string_scope.
Local Open Scope Z_scope.

Set Warnings "-register-all".

(** ** Machine integers *)

Definition int := Z.

Definition UINT32_MAX : Z := 4294967295.

(** Unsigned arithmetic wraps around. *)
Definition wrap32 (z : Z) : Z := z mod 2 ^ 32.
Definition wrap64 (z : Z) : Z := z mod 2 ^ 64.

Definition uint32 (z : Z) : Prop := 0 <= z <= UINT32_MAX.

Definition EINVAL : int := 22.
Definition ENOMEM : int := 12.

(** ** Data model *)

(** WT_ITEM: a buffer; its content is the first [size] bytes of [data]. *)
Record WT_ITEM := mkItem {
  data : list byte;
  size : Z
}.

Definition item_bytes (i : WT_ITEM) : list byte :=
  firstn (Z.to_nat (size i)) (data i).

(** WT_UPDATE: one entry of a version chain, newest first. *)
Inductive WT_UPDATE : Type := mkUpdate {
  upd_type : Z;
  upd_txnid : Z;
  upd_next : option WT_UPDATE
}.

(** Insert lists and their nodes are only ever compared by address. *)
Definition WT_INSERT := Z.
Definition WT_INSERT_HEAD := Z.
Definition WT_COLLATOR := Z.

(** WT_COL: the on-page reference of a variable-length column-store
    entry.  WT_CELL: the cell it refers to. *)
Definition WT_COL := Z.
Definition WT_CELL := list byte.

Record WT_PAGE_MODIFY := mkModify {
  mod_row_update : option (list (option WT_UPDATE))
}.

Record WT_PAGE := mkPage {
  type : Z;
  entries : Z;
  pg_var : list WT_COL;
  modify : option WT_PAGE_MODIFY
}.

Record WT_REF := mkRef {
  ref_recno : Z;
  page : WT_PAGE
}.

Record WT_CURSOR := mkCursor {
  key : WT_ITEM
}.

Record WT_BTREE := mkBtree {
  collator : option WT_COLLATOR;
  key_format : string
}.

Record WT_CURSOR_BTREE := mkCbt {
  iface : WT_CURSOR;
  ref : WT_REF;
  slot : Z;
  ins : option WT_INSERT;
  ins_head : option WT_INSERT_HEAD;
  recno : Z;
  last_standard_recno : Z;
  row_iteration_slot : Z;
  lastkey : WT_ITEM;
  lastrecno : Z;
  flags : Z
}.

(** Field assignments. *)
Definition set_row_iteration_slot (v : Z) (c : WT_CURSOR_BTREE) :=
  mkCbt (iface c) (ref c) (slot c) (ins c) (ins_head c) (recno c)
        (last_standard_recno c) v (lastkey c) (lastrecno c) (flags c).

Definition set_last_standard_recno (v : Z) (c : WT_CURSOR_BTREE) :=
  mkCbt (iface c) (ref c) (slot c) (ins c) (ins_head c) (recno c)
        v (row_iteration_slot c) (lastkey c) (lastrecno c) (flags c).

Definition set_lastkey (v : WT_ITEM) (c : WT_CURSOR_BTREE) :=
  mkCbt (iface c) (ref c) (slot c) (ins c) (ins_head c) (recno c)
        (last_standard_recno c) (row_iteration_slot c) v (lastrecno c)
        (flags c).

Definition set_lastrecno (v : Z) (c : WT_CURSOR_BTREE) :=
  mkCbt (iface c) (ref c) (slot c) (ins c) (ins_head c) (recno c)
        (last_standard_recno c) (row_iteration_slot c) (lastkey c) v
        (flags c).

Definition set_flags (v : Z) (c : WT_CURSOR_BTREE) :=
  mkCbt (iface c) (ref c) (slot c) (ins c) (ins_head c) (recno c)
        (last_standard_recno c) (row_iteration_slot c) (lastkey c)
        (lastrecno c) v.

Definition set_size (n : Z) (i : WT_ITEM) : WT_ITEM := mkItem (data i) n.

Definition set_modify (m : option WT_PAGE_MODIFY) (p : WT_PAGE) : WT_PAGE :=
  mkPage (type p) (entries p) (pg_var p) m.

Definition set_page (p : WT_PAGE) (c : WT_CURSOR_BTREE) :=
  mkCbt (iface c) (mkRef (ref_recno (ref c)) p) (slot c) (ins c) (ins_head c)
        (recno c) (last_standard_recno c) (row_iteration_slot c) (lastkey c)
        (lastrecno c) (flags c).

(** Modelled from the spec: F_ISSET and F_SET are macros of wt_internal.h.
    The on-page-match flag and the append-traversal flag are bits of the
    cursor's flag word: a flag is set when its bit is, and setting a flag
    leaves the other bits alone. *)
Definition F_ISSET (c : WT_CURSOR_BTREE) (mask : Z) : bool :=
  negb (Z.land (flags c) mask =? 0).

Definition F_SET (c : WT_CURSOR_BTREE) (mask : Z) : WT_CURSOR_BTREE :=
  set_flags (Z.lor (flags c) mask) c.

Definition is_some {A : Type} (o : option A) : bool :=
  match o with Some _ => true | None => false end.

(** The element of an array at an index, when the index is in range. *)
Definition lookup {A : Type} (arr : list A) (i : Z) : option A :=
  if i <? 0 then None else nth_error arr (Z.to_nat i).

(** ** The rest of the engine *)

(** Modelled from the spec: [__wt_buf_set] (buffer management, not part of
    this file) is the operation that installs the current key as the
    ordering baseline: when it returns 0 the buffer it hands back has the
    size it was given and holds the bytes it was given.  Nothing is said
    of a failed copy. *)
Definition copies_on_success {S : Type}
    (buf_set : S -> WT_ITEM -> list byte -> Z -> int * WT_ITEM) : Prop :=
  forall s buf d n buf',
    buf_set s buf d n = (0, buf') ->
    size buf' = n /\ item_bytes buf' = firstn (Z.to_nat n) d.

(** Constants, macros and functions of wt_internal.h that the file uses
    and does not define.  They are left open: every result below holds for
    every engine. *)
Class Engine (WT_SESSION_IMPL : Type) := {
  WT_RECNO_OOB : Z;
  WT_CELL_DEL : Z;
  WT_UPDATE_TOMBSTONE : Z;
  WT_PAGE_COL_VAR : Z;
  WT_CBT_VAR_ONPAGE_MATCH : Z;
  WT_CBT_ITERATE_APPEND : Z;
  S2BT : WT_SESSION_IMPL -> WT_BTREE;
  WT_COL_PTR : WT_PAGE -> WT_COL -> WT_CELL;
  __wt_cell_type : WT_CELL -> Z;
  WT_ROW_INSERT_SMALLEST : WT_PAGE -> option WT_INSERT_HEAD;
  WT_COL_APPEND : WT_PAGE -> option WT_INSERT_HEAD;
  __col_var_last_recno : WT_REF -> Z;
  __col_fix_last_recno : WT_REF -> Z;
  (* the visibility resolver: return code and the update stored in *updp *)
  __wt_txn_read :
    WT_SESSION_IMPL -> option WT_UPDATE -> int * option WT_UPDATE;
  (* the collator: return code and the value stored in *cmp *)
  __wt_compare :
    WT_SESSION_IMPL -> option WT_COLLATOR -> WT_ITEM -> WT_ITEM -> int * int;
  __wt_buf_set :
    WT_SESSION_IMPL -> WT_ITEM -> list byte -> Z -> int * WT_ITEM;
  __wt_scr_alloc :
    WT_SESSION_IMPL -> Z -> int * option WT_ITEM * WT_SESSION_IMPL;
  __wt_scr_free : WT_SESSION_IMPL -> option WT_ITEM -> WT_SESSION_IMPL;
  __wt_buf_set_printable_format :
    WT_SESSION_IMPL -> list byte -> Z -> string -> option WT_ITEM -> string;
  __wt_buf_set_copies : copies_on_success __wt_buf_set
}.

(** ** Worlds, outcomes and the computation monad *)

(** What a fatal diagnostic reports about a position. *)
Inductive diag : Type :=
| DiagRecno (r : Z)
| DiagKey (printable : string).

(** Modelled from the spec: WT_ASSERT, WT_PANIC_RET and WT_PANIC_ERR are
    macros of wt_internal.h.  A failed assertion of invariant I1 and an
    ordering violation are integrity faults: they end the operation with a
    signal distinct from every return code, the ordering violation carrying
    the error code, the operation and both compared values.  An array
    access outside the array has no defined result and is kept apart as
    [OutOfBounds]. *)
Inductive fault : Type :=
| AssertionFailed (what : string)
| OutOfBounds (array : string) (index : Z)
| Panic (code : int) (op : string) (previous current : diag).

Section World.

Context {WT_SESSION_IMPL : Type}.

(** The memory a call can see: the session, the cursor (with its page),
    the caller's cells behind [updp] and [valid], and the list of version
    chains handed to the visibility resolver so far (newest first).
    [w_updp = None] stands for a call with [updp == NULL]. *)
Record world := mkWorld {
  w_session : WT_SESSION_IMPL;
  w_cbt : WT_CURSOR_BTREE;
  w_updp : option (option WT_UPDATE);
  w_valid : bool;
  w_txn_reads : list (option WT_UPDATE)
}.

Inductive outcome (A : Type) : Type :=
| Returns (a : A) (w : world)
| Fatal (f : fault).

Definition M (A : Type) : Type := world -> outcome A.

Definition ret {A : Type} (a : A) : M A := fun w => Returns A a w.

Definition bind {A B : Type} (c : M A) (k : A -> M B) : M B :=
  fun w => match c w with
           | Returns _ a w' => k a w'
           | Fatal _ f => Fatal B f
           end.

Definition gets {A : Type} (f : world -> A) : M A :=
  fun w => Returns A (f w) w.

Definition modify_world (f : world -> world) : M unit :=
  fun w => Returns unit tt (f w).

Definition abort {A : Type} (f : fault) : M A := fun _ => Fatal A f.

Definition put_session (s : WT_SESSION_IMPL) (w : world) : world :=
  mkWorld s (w_cbt w) (w_updp w) (w_valid w) (w_txn_reads w).

Definition put_cbt (c : WT_CURSOR_BTREE) (w : world) : world :=
  mkWorld (w_session w) c (w_updp w) (w_valid w) (w_txn_reads w).

Definition put_updp (u : option (option WT_UPDATE)) (w : world) : world :=
  mkWorld (w_session w) (w_cbt w) u (w_valid w) (w_txn_reads w).

Definition put_valid (b : bool) (w : world) : world :=
  mkWorld (w_session w) (w_cbt w) (w_updp w) b (w_txn_reads w).

Definition log_txn_read (u : option WT_UPDATE) (w : world) : world :=
  mkWorld (w_session w) (w_cbt w) (w_updp w) (w_valid w)
          (u :: w_txn_reads w).

End World.

Arguments world : clear implicits.
Arguments outcome : clear implicits.
Arguments M : clear implicits.
Arguments Returns {WT_SESSION_IMPL A} a w.
Arguments Fatal {WT_SESSION_IMPL A} f.

Declare Scope cursor_scope.
Delimit Scope cursor_scope with cursor.

Notation "x <- c ;; k" := (bind c (fun x => k))
  (at level 61, c at next level, right associativity) : cursor_scope.
Notation "c ;;; k" := (bind c (fun _ => k))
  (at level 61, right associativity) : cursor_scope.

Local Open Scope cursor_scope.

(** Modelled from the spec: WT_RET_MSG (a macro of wt_internal.h) makes the
    function fail with the given error code and message; the failure is a
    value handed to the caller. *)
Inductive ret_msg : Type :=
| RetOk
| RetMsg (code : int) (msg : string).

Section Code.

Context {WT_SESSION_IMPL : Type} {E : Engine WT_SESSION_IMPL}.

Local Abbreviation world := (world WT_SESSION_IMPL).
Local Abbreviation M := (M WT_SESSION_IMPL).

(** Error handling follows the file's macros: WT_RET(e) returns the code
    of [e] when it is not 0, WT_ERR(e) does so through the [err:] label;
    both are written out as tests on the return code below. *)

Definition WT_ASSERT (what : string) (b : bool) : M unit :=
  if b then ret tt else abort (AssertionFailed what).

Definition WT_PANIC {A : Type} (code : int) (op : string)
    (previous current : diag) : M A :=
  abort (Panic code op previous current).

(** [arr[i]]: defined for the indices of the array only. *)
Definition array_get {A : Type} (name : string) (arr : list A) (i : Z)
    : M A :=
  match lookup arr i with
  | Some a => ret a
  | None => abort (OutOfBounds name i)
  end.

(** Pointer comparison; NULL is [None]. *)
Definition ptr_eqb (p q : option Z) : bool :=
  match p, q with
  | Some a, Some b => a =? b
  | None, None => true
  | _, _ => false
  end.

(** ** Huffman applicability *)

(** __bt_col_fix_huffman: col fix doesn't support huffman. *)
Definition __bt_col_fix_huffman (len : Z) : M ret_msg :=
  ret (RetMsg EINVAL
         "fixed-size column-store files may not be Huffman encoded").

(** __bt_col_var_huffman: check whether col var supports huffman. *)
Definition __bt_col_var_huffman (len : Z) : M ret_msg :=
  if negb (len =? 0) then
    ret (RetMsg EINVAL
           "the keys of variable-length column-store files may not be Huffman encoded")
  else ret RetOk.

(** __bt_row_huffman: row always supports huffman. *)
Definition __bt_row_huffman (len : Z) : M ret_msg :=
  ret RetOk.

(** ** Cursor validity *)

(** [*valid = true; return (0);] *)
Definition return_valid : M int :=
  modify_world (put_valid true) ;;; ret 0.

(** __bt_col_fix_cursor_valid: check cursor validity for col fix. *)
Definition __bt_col_fix_cursor_valid : M int :=
  cbt <- gets w_cbt ;;
  if recno cbt >=? wrap64 (ref_recno (ref cbt) + entries (page (ref cbt)))
  then ret 0
  else return_valid.

(** __bt_col_var_cursor_valid: check cursor validity for col var. *)
Definition __bt_col_var_cursor_valid : M int :=
  cbt <- gets w_cbt ;;
  let page := page (ref cbt) in
  (* The search function doesn't check for empty pages. *)
  if entries page =? 0 then ret 0 else
  WT_ASSERT "cbt->slot == UINT32_MAX || cbt->slot < page->entries"
    ((slot cbt =? UINT32_MAX) || (slot cbt <? entries page)) ;;;
  (* If search returned an insert object we can't return, the returned
     on-page object must be checked for a match. *)
  if is_some (ins cbt) && negb (F_ISSET cbt WT_CBT_VAR_ONPAGE_MATCH)
  then ret 0 else
  (* check the cell for a record already deleted when read *)
  cip <- array_get "pg_var" (pg_var page) (slot cbt) ;;
  let cell := WT_COL_PTR page cip in
  if __wt_cell_type cell =? WT_CELL_DEL then ret 0 else return_valid.

(** [__wt_txn_read(session, upd, &upd)], recorded in the world. *)
Definition txn_read (chain : option WT_UPDATE)
    : M (int * option WT_UPDATE) :=
  session <- gets w_session ;;
  modify_world (log_txn_read chain) ;;;
  ret (__wt_txn_read session chain).

(** [if (updp != NULL) *updp = upd;] *)
Definition store_updp (upd : WT_UPDATE) : M unit :=
  modify_world (fun w => match w_updp w with
                         | Some _ => put_updp (Some (Some upd)) w
                         | None => w
                         end).

(** __bt_row_cursor_valid: check cursor validity for row. *)
Definition __bt_row_cursor_valid : M int :=
  cbt <- gets w_cbt ;;
  let page := page (ref cbt) in
  (* The search function doesn't check for empty pages. *)
  if entries page =? 0 then ret 0 else
  WT_ASSERT "cbt->slot == UINT32_MAX || cbt->slot < page->entries"
    ((slot cbt =? UINT32_MAX) || (slot cbt <? entries page)) ;;;
  (* for row-store, no insert object can have the same key as an on-page
     object, we're done *)
  if is_some (ins cbt) then ret 0 else
  (* Check for an update. *)
  match modify page with
  | Some pmod =>
    match mod_row_update pmod with
    | Some upds =>
      chain <- array_get "mod_row_update" upds (slot cbt) ;;
      r <- txn_read chain ;;
      let '(rc, upd) := r in
      if negb (rc =? 0) then ret rc else
      match upd with
      | Some u =>
        if upd_type u =? WT_UPDATE_TOMBSTONE then ret 0
        else store_updp u ;;; return_valid
      | None => return_valid
      end
    | None => return_valid
    end
  | None => return_valid
  end.

(** ** Iteration set-up *)

(** __bt_col_cursor_iterate_setup: set up cursor for col table. *)
Definition __bt_col_cursor_iterate_setup : M unit :=
  cbt <- gets w_cbt ;;
  let page := page (ref cbt) in
  (* calculate the largest record on the page *)
  let cbt :=
    set_last_standard_recno
      (if type page =? WT_PAGE_COL_VAR then __col_var_last_recno (ref cbt)
       else __col_fix_last_recno (ref cbt)) cbt in
  (* If we're traversing the append list, set the reference. *)
  let cbt :=
    if is_some (ins_head cbt) && ptr_eqb (ins_head cbt) (WT_COL_APPEND page)
    then F_SET cbt WT_CBT_ITERATE_APPEND else cbt in
  modify_world (put_cbt cbt).

(** __bt_row_cursor_iterate_setup: set up cursor for row table.  Slot 1 is
    the smallest-key insert list, slot 2 is WT_ROW[0], slot 3 is
    WT_INSERT_HEAD[0], and so on.  [slot] is a 32-bit unsigned integer, and
    so is the arithmetic on it. *)
Definition __bt_row_cursor_iterate_setup : M unit :=
  cbt <- gets w_cbt ;;
  let page := page (ref cbt) in
  let cbt := set_row_iteration_slot (wrap32 (wrap32 (slot cbt + 1) * 2)) cbt in
  let cbt :=
    if is_some (ins_head cbt) then
      if ptr_eqb (ins_head cbt) (WT_ROW_INSERT_SMALLEST page)
      then set_row_iteration_slot 1 cbt
      else set_row_iteration_slot (wrap32 (row_iteration_slot cbt + 1)) cbt
    else cbt in
  modify_world (put_cbt cbt).

(** ** Key-order checks (diagnostic builds) *)

(** __bt_col_cursor_key_order_init *)
Definition __bt_col_cursor_key_order_init : M int :=
  cbt <- gets w_cbt ;;
  modify_world (put_cbt (set_lastrecno (recno cbt) cbt)) ;;;
  ret 0.

(** [return (__wt_buf_set(session, cbt->lastkey, cbt->iface.key.data,
    cbt->iface.key.size));] *)
Definition return_buf_set_lastkey : M int :=
  session <- gets w_session ;;
  cbt <- gets w_cbt ;;
  let r := __wt_buf_set session (lastkey cbt)
             (data (key (iface cbt))) (size (key (iface cbt))) in
  modify_world (put_cbt (set_lastkey (snd r) cbt)) ;;;
  ret (fst r).

(** __bt_row_cursor_key_order_init *)
Definition __bt_row_cursor_key_order_init : M int :=
  return_buf_set_lastkey.

Definition direction (next : bool) : string :=
  if next then "next" else "prev".

(** __bt_col_cursor_key_order_check: check key ordering for column-store
    cursor movements. *)
Definition __bt_col_cursor_key_order_check (next : bool) : M int :=
  cbt <- gets w_cbt ;;
  let cmp := 0 in
  let cmp :=
    if negb (lastrecno cbt =? WT_RECNO_OOB) then
      let cmp := if lastrecno cbt <? recno cbt then -1 else cmp in
      if lastrecno cbt >? recno cbt then 1 else cmp
    else cmp in
  if (lastrecno cbt =? WT_RECNO_OOB)
     || (next && (cmp <? 0)) || (negb next && (cmp >? 0))
  then
    modify_world (put_cbt (set_lastrecno (recno cbt) cbt)) ;;;
    ret 0
  else
    WT_PANIC EINVAL (direction next)
      (DiagRecno (lastrecno cbt)) (DiagRecno (recno cbt)).

(** The [err:] exit of the row check: release both scratch buffers and
    return [ret]. *)
Definition err_exit (ret_ : int) (a b : option WT_ITEM) : M int :=
  modify_world
    (fun w => put_session (__wt_scr_free (__wt_scr_free (w_session w) a) b) w)
  ;;; ret ret_.

(** [__wt_scr_alloc(session, 512, &a)] *)
Definition scr_alloc (n : Z) : M (int * option WT_ITEM) :=
  session <- gets w_session ;;
  let r := __wt_scr_alloc session n in
  modify_world (put_session (snd r)) ;;;
  ret (fst r).

(** __bt_row_cursor_key_order_check: check key ordering for row-store
    cursor movements. *)
Definition __bt_row_cursor_key_order_check (next : bool) : M int :=
  session <- gets w_session ;;
  cbt <- gets w_cbt ;;
  let btree := S2BT session in
  let key := key (iface cbt) in
  let r :=
    if negb (size (lastkey cbt) =? 0)
    then __wt_compare session (collator btree) (lastkey cbt) key
    else (0, 0) in
  let cmp := snd r in
  if negb (fst r =? 0) then ret (fst r) else
  if (size (lastkey cbt) =? 0)
     || (next && (cmp <? 0)) || (negb next && (cmp >? 0))
  then return_buf_set_lastkey
  else
    ra <- scr_alloc 512 ;;
    if negb (fst ra =? 0) then err_exit (fst ra) (snd ra) None else
    rb <- scr_alloc 512 ;;
    if negb (fst rb =? 0) then err_exit (fst rb) (snd ra) (snd rb) else
    session <- gets w_session ;;
    WT_PANIC EINVAL (direction next)
      (DiagKey (__wt_buf_set_printable_format session
                  (data (lastkey cbt)) (size (lastkey cbt))
                  (key_format btree) (snd ra)))
      (DiagKey (__wt_buf_set_printable_format session
                  (data key) (size key) (key_format btree) (snd rb))).

(** __bt_cursor_key_order_reset: turn off key ordering checks for cursor
    movements. *)
Definition __bt_cursor_key_order_reset : M unit :=
  cbt <- gets w_cbt ;;
  (* Clear the last-key returned, it doesn't apply. *)
  let cbt := set_lastkey (set_size 0 (lastkey cbt)) cbt in
  let cbt := set_lastrecno WT_RECNO_OOB cbt in
  modify_world (put_cbt cbt).

End Code.

(** ** What a validity check tells its caller *)

Section Verdicts.

Context {WT_SESSION_IMPL : Type}.

Local Abbreviation world := (world WT_SESSION_IMPL).
Local Abbreviation M := (M WT_SESSION_IMPL).

(** The caller clears both cells before the call: the checks store into
    them on the valid path only. *)
Definition cleared (w : world) : world :=
  put_valid false
    (match w_updp w with
     | Some _ => put_updp (Some None) w
     | None => w
     end).

(** The check returns 0 and the caller finds [*valid] set. *)
Definition reports_valid (check : M int) (w : world) : Prop :=
  exists w', check (cleared w) = Returns 0 w' /\ w_valid w' = true.

(** The check returns 0 and the caller finds [*valid] still clear. *)
Definition reports_invalid (check : M int) (w : world) : Prop :=
  exists w', check (cleared w) = Returns 0 w' /\ w_valid w' = false.

(** The check returns 0, the caller finds [*valid] set and, where it
    passed a cell for the visible update, finds [u] in it. *)
Definition reports_valid_with (check : M int) (w : world)
    (u : option WT_UPDATE) : Prop :=
  exists w', check (cleared w) = Returns 0 w' /\ w_valid w' = true /\
             w_updp w' = option_map (fun _ => u) (w_updp w).

(** What the caller can observe of a finished check: the return code, the
    two cells, and the chains the resolver was consulted on. *)
Definition observation (o : outcome WT_SESSION_IMPL int)
    : option (int * bool * option (option WT_UPDATE)
              * list (option WT_UPDATE)) :=
  match o with
  | Returns r w' => Some (r, w_valid w', w_updp w', w_txn_reads w')
  | Fatal _ => None
  end.

(** A check stores into [*valid] on the valid path only, and then stores
    [true]; on every other return both cells hold what the caller put
    there.  The cursor, its page and the session are never written. *)
Definition writes_only_when_valid (check : M int) : Prop :=
  forall w r w',
    check w = Returns r w' ->
    w_cbt w' = w_cbt w /\ w_session w' = w_session w /\
    ((r = 0 /\ reports_valid check w /\ w_valid w' = true) \/
     (~ reports_valid check w /\
      w_valid w' = w_valid w /\ w_updp w' = w_updp w)).

(** The computation stopped on an array access outside the array. *)
Definition out_of_bounds {A : Type} (o : outcome WT_SESSION_IMPL A) : Prop :=
  exists array index, o = Fatal (OutOfBounds array index).

(** A Huffman gate fails with a configuration error, or succeeds; in both
    cases the world is the one it started from. *)
Definition config_error (gate : M ret_msg) (w : world) : Prop :=
  exists msg, gate w = Returns (RetMsg EINVAL msg) w.

Definition config_ok (gate : M ret_msg) (w : world) : Prop :=
  gate w = Returns RetOk w.

End Verdicts.

(** Invariant I1 of the cursor: the slot is the sentinel or on the page. *)
Definition I1 (cbt : WT_CURSOR_BTREE) : Prop :=
  slot cbt = UINT32_MAX \/ slot cbt < entries (page (ref cbt)).

(** The arrays of a page have one element per entry: [pg_var] on a
    variable-length column page, the update array (when there is one) on a
    row page. *)
Definition var_page_arrays (p : WT_PAGE) : Prop :=
  Z.of_nat (List.length (pg_var p)) = entries p.

Definition row_page_arrays (p : WT_PAGE) : Prop :=
  forall pmod upds,
    modify p = Some pmod -> mod_row_update pmod = Some upds ->
    Z.of_nat (List.length upds) = entries p.

(** ** Positions of a row-store cursor and ordered returns *)

(** Where the row iteration set-up finds the cursor: on an on-page slot,
    on the smallest-key insert list, or on the insert list that follows an
    on-page slot. *)
Inductive row_position : Type :=
| OnPageSlot (s : Z)
| SmallestInsertList
| SlotInsertList (s : Z).

Section Positions.

Context {WT_SESSION_IMPL : Type} {E : Engine WT_SESSION_IMPL}.

Definition position_of (cbt : WT_CURSOR_BTREE) : row_position :=
  match ins_head cbt with
  | None => OnPageSlot (slot cbt)
  | Some h =>
    if ptr_eqb (Some h) (WT_ROW_INSERT_SMALLEST (page (ref cbt)))
    then SmallestInsertList
    else SlotInsertList (slot cbt)
  end.

(** The logical slot of a position in unbounded arithmetic: twice the
    on-page slot plus two, one for the smallest-key insert list, and one
    more than the on-page slot's for the insert list that follows it. *)
Definition logical_slot_of (p : row_position) : Z :=
  match p with
  | OnPageSlot s => (s + 1) * 2
  | SmallestInsertList => 1
  | SlotInsertList s => (s + 1) * 2 + 1
  end.

Definition is_insert_list (p : row_position) : bool :=
  match p with
  | OnPageSlot _ => false
  | SmallestInsertList | SlotInsertList _ => true
  end.

(** The set-up returns, having stored [n] as the logical slot. *)
Definition sets_logical_slot (w : world WT_SESSION_IMPL) (n : Z) : Prop :=
  exists w', __bt_row_cursor_iterate_setup w = Returns tt w' /\
             row_iteration_slot (w_cbt w') = n.

(** The column baseline admits the current record number. *)
Definition col_in_order (next : bool) (cbt : WT_CURSOR_BTREE) : Prop :=
  lastrecno cbt = WT_RECNO_OOB \/
  (next = true /\ lastrecno cbt < recno cbt) \/
  (next = false /\ lastrecno cbt > recno cbt).

(** The row baseline admits the current key: there is none, or the
    collator answered [cmp] with the sign the direction asks for. *)
Definition row_in_order (next : bool) (cbt : WT_CURSOR_BTREE) (cmp : Z)
    : Prop :=
  size (lastkey cbt) = 0 \/
  (next = true /\ cmp < 0) \/ (next = false /\ cmp > 0).

(** The fatal signal of an ordering violation. *)
Definition order_violation (next : bool) (previous current : diag)
    : outcome WT_SESSION_IMPL int :=
  Fatal (Panic EINVAL (direction next) previous current).

End Positions.

(** ** A small engine to run the code on

    Sessions are the number of bytes the allocator can still hand out;
    updates of transactions up to 100 are visible, a negative transaction
    id is a conflict; keys compare bytewise. *)

Definition WT_PREPARE_CONFLICT : int := -31808.

Fixpoint first_visible (u : WT_UPDATE) : option WT_UPDATE :=
  match u with
  | mkUpdate _ txnid next =>
    if txnid <=? 100 then Some u
    else match next with
         | Some n => first_visible n
         | None => None
         end
  end.

Definition demo_txn_read (s : Z) (chain : option WT_UPDATE)
    : int * option WT_UPDATE :=
  match chain with
  | None => (0, None)
  | Some u =>
    if upd_txnid u <? 0 then (WT_PREPARE_CONFLICT, None)
    else (0, first_visible u)
  end.

Fixpoint lex_compare (a b : list byte) : int :=
  match a, b with
  | [], [] => 0
  | [], _ :: _ => -1
  | _ :: _, [] => 1
  | x :: a', y :: b' =>
    if (Byte.to_N x <? Byte.to_N y)%N then -1
    else if (Byte.to_N y <? Byte.to_N x)%N then 1
    else lex_compare a' b'
  end.

Definition demo_compare (s : Z) (c : option WT_COLLATOR) (a b : WT_ITEM)
    : int * int :=
  (0, lex_compare (item_bytes a) (item_bytes b)).

Definition demo_buf_set (s : Z) (buf : WT_ITEM) (d : list byte) (n : Z)
    : int * WT_ITEM :=
  if n <=? s then (0, mkItem (firstn (Z.to_nat n) d) n) else (ENOMEM, buf).

Definition demo_scr_alloc (s : Z) (n : Z) : int * option WT_ITEM * Z :=
  if n <=? s then (0, Some (mkItem [] 0), s - n) else (ENOMEM, None, s).

Definition demo_scr_free (s : Z) (a : option WT_ITEM) : Z :=
  match a with Some _ => s + 512 | None => s end.

Definition demo_cell_type (c : WT_CELL) : Z :=
  match c with
  | b :: _ => Z.land (Z.of_N (Byte.to_N b)) 240
  | [] => 0
  end.

Definition demo_col_ptr (p : WT_PAGE) (cip : WT_COL) : WT_CELL :=
  match Byte.of_N (Z.to_N cip) with
  | Some b => [b]
  | None => []
  end.

Definition demo_printable (s : Z) (d : list byte) (n : Z) (fmt : string)
    (scratch : option WT_ITEM) : string :=
  string_of_list_byte (firstn (Z.to_nat n) d).

Definition engine_with
    (resolver : Z -> option WT_UPDATE -> int * option WT_UPDATE)
    : Engine Z := {|
  WT_RECNO_OOB := 0;
  WT_CELL_DEL := 80;
  WT_UPDATE_TOMBSTONE := 4;
  WT_PAGE_COL_VAR := 4;
  WT_CBT_VAR_ONPAGE_MATCH := 512;
  WT_CBT_ITERATE_APPEND := 4;
  S2BT := fun _ => mkBtree None "u";
  WT_COL_PTR := demo_col_ptr;
  __wt_cell_type := demo_cell_type;
  WT_ROW_INSERT_SMALLEST :=
    fun p => if is_some (modify p) then Some 1000 else None;
  WT_COL_APPEND := fun p => if is_some (modify p) then Some 2000 else None;
  __col_var_last_recno := fun r => ref_recno r + entries (page r) - 1;
  __col_fix_last_recno := fun r => ref_recno r + entries (page r) - 1;
  __wt_txn_read := resolver;
  __wt_compare := demo_compare;
  __wt_buf_set := demo_buf_set;
  __wt_scr_alloc := demo_scr_alloc;
  __wt_scr_free := demo_scr_free;
  __wt_buf_set_printable_format := demo_printable;
  __wt_buf_set_copies := ltac:(
    intros s buf d n buf'; unfold demo_buf_set;
    destruct (n <=? s); intros H; inversion H; subst; clear H;
    unfold item_bytes; cbn; split; [reflexivity|];
    apply firstn_all2; apply firstn_le_length)
|}.

Definition demo_engine : Engine Z := engine_with demo_txn_read.

(** An engine whose resolver reports a conflict on every chain. *)
Definition conflict_engine : Engine Z :=
  engine_with (fun _ _ => (WT_PREPARE_CONFLICT, None)).

(** Sample cursors and worlds. *)
Definition empty_item : WT_ITEM := mkItem [] 0.

Definition demo_cbt (p : WT_PAGE) (base slot_ recno_ : Z)
    (ins_ : option WT_INSERT) (head : option WT_INSERT_HEAD) (flags_ : Z)
    : WT_CURSOR_BTREE :=
  mkCbt (mkCursor empty_item) (mkRef base p) slot_ ins_ head recno_
        0 0 empty_item 0 flags_.

Definition demo_world (mem : Z) (c : WT_CURSOR_BTREE) : world Z :=
  mkWorld mem c (Some None) false [].

(** A fixed-length column page: 5 records starting at record 10. *)
Definition fix_page : WT_PAGE := mkPage 3 5 [] None.

(** Record 3 looked up on the page that starts at record 10. *)
Definition below_base_world : world Z :=
  demo_world 0 (demo_cbt fix_page 10 0 3 None None 0).

(** A variable-length column page with 3 entries, the one at slot 1
    deleted. *)
Definition var_page : WT_PAGE := mkPage 4 3 [16; 80; 32] None.

Definition var_world (slot_ : Z) (ins_ : option WT_INSERT) (flags_ : Z)
    : world Z :=
  demo_world 0 (demo_cbt var_page 1 slot_ (1 + slot_) ins_ None flags_).

Definition empty_var_world : world Z :=
  demo_world 0 (demo_cbt (mkPage 4 0 [] None) 1 0 1 None None 0).

(** A row page with 3 entries: slot 0 carries a visible value update,
    slot 1 a visible tombstone over an older value, slot 2 no update. *)
Definition WT_UPDATE_STANDARD : Z := 3.

Definition upd_value : WT_UPDATE := mkUpdate WT_UPDATE_STANDARD 5 None.
Definition upd_removed : WT_UPDATE := mkUpdate 4 7 (Some upd_value).
Definition upd_conflict : WT_UPDATE := mkUpdate WT_UPDATE_STANDARD (-1) None.

Definition row_updates : WT_PAGE_MODIFY :=
  mkModify (Some [Some upd_value; Some upd_removed; None]).

Definition row_page : WT_PAGE := mkPage 7 3 [] (Some row_updates).

(** A row page whose only slot carries an update the resolver cannot
    read. *)
Definition conflict_updates : WT_PAGE_MODIFY :=
  mkModify (Some [Some upd_conflict]).

Definition conflict_page : WT_PAGE := mkPage 7 1 [] (Some conflict_updates).

Definition row_world (p : WT_PAGE) (slot_ : Z) (ins_ : option WT_INSERT)
    : world Z :=
  demo_world 0 (demo_cbt p 0 slot_ 0 ins_ None 0).

(** Two cursors on on-page slots 0 and 2^31 of a page with 2^31 + 1
    entries. *)
Definition huge_row_page : WT_PAGE := mkPage 7 2147483649 [] None.

Definition slot_world (slot_ : Z) (head : option WT_INSERT_HEAD)
    : world Z :=
  demo_world 0 (demo_cbt huge_row_page 0 slot_ 0 None head 0).

(** Cursors on a row page with update structures, so that the page has
    a smallest-key insert list (at address 1000). *)
Definition list_world (slot_ : Z) (head : option WT_INSERT_HEAD)
    : world Z :=
  demo_world 0 (demo_cbt row_page 0 slot_ 0 None head 0).

(** Traversal states: the last returned position and the current one. *)
Definition recno_world (last cur : Z) : world Z :=
  demo_world 0
    (mkCbt (mkCursor empty_item) (mkRef 1 fix_page) 0 None None cur
           0 0 empty_item last 0).

Definition key_world (mem : Z) (last cur : list byte) : world Z :=
  demo_world mem
    (mkCbt (mkCursor (mkItem cur (Z.of_nat (List.length cur))))
           (mkRef 0 row_page) 0 None None 0 0 0
           (mkItem last (Z.of_nat (List.length last))) 0 0).

(** A variable-length column page with update structures, so that it has
    an append list (at address 2000), and a cursor on that list. *)
Definition append_page : WT_PAGE :=
  mkPage 4 3 [16; 80; 32] (Some (mkModify None)).

Definition append_world (head : option WT_INSERT_HEAD) (flags_ : Z)
    : world Z :=
  demo_world 0 (demo_cbt append_page 1 0 1 None head flags_).

(** ** Moving the cursor between calls *)

Definition set_recno (v : Z) (c : WT_CURSOR_BTREE) :=
  mkCbt (iface c) (ref c) (slot c) (ins c) (ins_head c) v
        (last_standard_recno c) (row_iteration_slot c) (lastkey c)
        (lastrecno c) (flags c).

Definition set_ins (v : option WT_INSERT) (c : WT_CURSOR_BTREE) :=
  mkCbt (iface c) (ref c) (slot c) v (ins_head c) (recno c)
        (last_standard_recno c) (row_iteration_slot c) (lastkey c)
        (lastrecno c) (flags c).

Definition set_key (k : WT_ITEM) (c : WT_CURSOR_BTREE) :=
  mkCbt (mkCursor k) (ref c) (slot c) (ins c) (ins_head c) (recno c)
        (last_standard_recno c) (row_iteration_slot c) (lastkey c)
        (lastrecno c) (flags c).

Section Traversal.

Context {WT_SESSION_IMPL : Type} {E : Engine WT_SESSION_IMPL}.

(** The cursor is on the page's append list: the test of the column
    iteration set-up. *)
Definition traversing_append (cbt : WT_CURSOR_BTREE) : bool :=
  is_some (ins_head cbt)
  && ptr_eqb (ins_head cbt) (WT_COL_APPEND (page (ref cbt))).

(** The largest record of the page, as the column set-up computes it. *)
Definition page_last_recno (cbt : WT_CURSOR_BTREE) : Z :=
  if type (page (ref cbt)) =? WT_PAGE_COL_VAR
  then __col_var_last_recno (ref cbt)
  else __col_fix_last_recno (ref cbt).

(** A cursor movement as the column order check sees it: the cursor
    stands on another record number. *)
Definition move_to_recno (r : Z) : M WT_SESSION_IMPL unit :=
  modify_world (fun w => put_cbt (set_recno r (w_cbt w)) w).


(** The world once the cursor has moved to record [r] and the check has
    taken it as baseline. *)
Definition arrived_at (r : Z) (w : world WT_SESSION_IMPL)
    : world WT_SESSION_IMPL :=
  put_cbt (set_lastrecno r (set_recno r (w_cbt w))) w.

(** The same for the row store: the cursor stands on another key. *)
Definition move_to_key (k : WT_ITEM) : M WT_SESSION_IMPL unit :=
  modify_world (fun w => put_cbt (set_key k (w_cbt w)) w).

(** The order a direction asks of two consecutive record numbers. *)
Definition precedes (next : bool) (a b : Z) : Prop :=
  if next then a < b else a > b.

End Traversal.

(** * Properties *)

Ltac run_code :=
  unfold reports_valid, reports_valid_with, reports_invalid, config_error,
    config_ok,
    __bt_col_fix_huffman, __bt_col_var_huffman, __bt_row_huffman,
    __bt_col_fix_cursor_valid, __bt_col_var_cursor_valid,
    __bt_row_cursor_valid, __bt_row_cursor_iterate_setup, sets_logical_slot,
    order_violation,
    __bt_col_cursor_key_order_check, __bt_row_cursor_key_order_check,
    __bt_cursor_key_order_reset, return_buf_set_lastkey, err_exit, scr_alloc,
    return_valid, txn_read, store_updp, array_get, WT_ASSERT, WT_PANIC,
    bind, ret, gets, modify_world, abort in *;
  cbn [w_session w_cbt w_updp w_valid w_txn_reads put_valid put_updp put_cbt
       put_session log_txn_read] in *.

(** Case analysis on the tests the code makes. *)
Ltac case_tests :=
  repeat match goal with
         | H : context [if ?b then _ else _] |- _ =>
           let Hb := fresh "Hb" in destruct b eqn:Hb; cbn in H
         | H : context [match ?o with Some _ => _ | None => _ end] |- _ =>
           let Ho := fresh "Ho" in destruct o eqn:Ho; cbn in H
         | H : context [let '(_, _) := ?p in _] |- _ =>
           let Hp := fresh "Hp" in destruct p eqn:Hp; cbn in H
         | H : Fatal _ = Returns _ _ |- _ => discriminate H
         | H : Returns _ _ = Returns _ _ |- _ => inversion H; subst; clear H
         end.

Ltac frame_done :=
  cbn;
  repeat match goal with
         | H : ?x = _ |- context [?x] => rewrite H; cbn
         end;
  repeat split;
  first
    [ right; repeat split;
      let H := fresh in
      let Hv := fresh in
      intros [? [H Hv]]; inversion H; subst; discriminate
    | left; repeat split; eexists; split; reflexivity ].

Ltac frame_cases :=
  let Hrun := fresh "Hrun" in
  intros [s c [u0|] v reads] r w' Hrun;
  unfold reports_valid, cleared; run_code; cbn in Hrun |- *;
  case_tests; frame_done.

Ltac split_tests :=
  repeat match goal with
         | |- context [if ?b then _ else _] => destruct b; cbn
         | |- context [match ?o with Some _ => _ | None => _ end] =>
           destruct o; cbn
         | |- context [let '(_, _) := ?p in _] => destruct p; cbn
         end.

Section Properties.

Context {WT_SESSION_IMPL : Type} {E : Engine WT_SESSION_IMPL}.

Local Abbreviation world := (world WT_SESSION_IMPL).
Local Abbreviation M := (M WT_SESSION_IMPL).

Lemma cleared_cbt (w : world) : w_cbt (cleared w) = w_cbt w.
Proof. unfold cleared. destruct (w_updp w); reflexivity. Qed.

Lemma cleared_session (w : world) : w_session (cleared w) = w_session w.
Proof. unfold cleared. destruct (w_updp w); reflexivity. Qed.

(** C7: the Huffman gate fails with the configuration error EINVAL for
    the fixed-length column layout whatever the length, fails for the
    variable-length column layout exactly when the length is not 0 and
    succeeds exactly when it is 0, and succeeds for the row layout
    whatever the length; each time the world is left as it was. *)
Theorem huffman_gate_by_layout :
  forall (len : Z) (w : world),
    config_error (__bt_col_fix_huffman len) w /\
    (config_error (__bt_col_var_huffman len) w <-> len <> 0) /\
    (config_ok (__bt_col_var_huffman len) w <-> len = 0) /\
    config_ok (__bt_row_huffman len) w.
Proof.
  intros len w. run_code.
  split; [eexists; reflexivity|].
  destruct (Z.eqb_spec len 0) as [->|Hne]; cbn.
  - repeat split; try reflexivity; try congruence.
    intros [msg H]. discriminate H.
  - repeat split; try reflexivity; try congruence.
    intros _. eexists; reflexivity.
Qed.

(** C1 (as the code has it): for the fixed-length column layout the check
    reports the position valid exactly when the record number is below
    base_recno + entries, the sum taken in unsigned 64-bit arithmetic, and
    invalid otherwise; the lower bound is not looked at. *)
Theorem col_fix_valid_iff_below_end :
  forall w : world,
    let cbt := w_cbt w in
    let page_end := wrap64 (ref_recno (ref cbt) + entries (page (ref cbt))) in
    (reports_valid __bt_col_fix_cursor_valid w <-> recno cbt < page_end) /\
    (reports_invalid __bt_col_fix_cursor_valid w <-> page_end <= recno cbt).
Proof.
  intros w cbt page_end. run_code. rewrite cleared_cbt.
  fold cbt. fold page_end.
  destruct (Z.geb_spec (recno cbt) page_end) as [Hge|Hlt]; cbn.
  - split; split.
    + intros [w' [H Hv]]. inversion H; subst. discriminate Hv.
    + lia.
    + lia.
    + intros _. eexists; split; reflexivity.
  - split; split.
    + lia.
    + intros _. eexists; split; reflexivity.
    + intros [w' [H Hv]]. inversion H; subst. discriminate Hv.
    + lia.
Qed.

Lemma I1_holds (cbt : WT_CURSOR_BTREE) :
  I1 cbt ->
  (slot cbt =? UINT32_MAX) || (slot cbt <? entries (page (ref cbt))) = true.
Proof.
  intros [H|H]; apply orb_true_iff; [left; lia | right; lia].
Qed.

Lemma deferred_to_insert (cbt : WT_CURSOR_BTREE) (mask : Z) :
  ins cbt <> None -> F_ISSET cbt mask = false ->
  is_some (ins cbt) && negb (F_ISSET cbt mask) = true.
Proof.
  intros Hi Hf. rewrite Hf. destruct (ins cbt); [reflexivity | congruence].
Qed.

Lemma not_deferred_to_insert (cbt : WT_CURSOR_BTREE) (mask : Z) :
  ins cbt = None \/ F_ISSET cbt mask = true ->
  is_some (ins cbt) && negb (F_ISSET cbt mask) = false.
Proof.
  intros [Hi|Hf]; [rewrite Hi; reflexivity|].
  rewrite Hf. apply andb_false_r.
Qed.

(** C3: the variable-length column check reports invalid on an empty
    page; on a non-empty page (the cursor satisfying I1) it reports invalid
    when an insert node is positioned and the on-page-match flag is not
    set; otherwise it looks at the on-page cell at the slot and reports
    invalid when the cell is of the deleted type and valid in every
    remaining case. *)
Theorem col_var_valid_decision :
  forall w : world,
    let cbt := w_cbt w in
    let pg := page (ref cbt) in
    (entries pg = 0 -> reports_invalid __bt_col_var_cursor_valid w) /\
    (entries pg <> 0 -> I1 cbt ->
     ins cbt <> None -> F_ISSET cbt WT_CBT_VAR_ONPAGE_MATCH = false ->
     reports_invalid __bt_col_var_cursor_valid w) /\
    (forall cip,
        entries pg <> 0 -> I1 cbt ->
        ins cbt = None \/ F_ISSET cbt WT_CBT_VAR_ONPAGE_MATCH = true ->
        lookup (pg_var pg) (slot cbt) = Some cip ->
        (__wt_cell_type (WT_COL_PTR pg cip) = WT_CELL_DEL ->
         reports_invalid __bt_col_var_cursor_valid w) /\
        (__wt_cell_type (WT_COL_PTR pg cip) <> WT_CELL_DEL ->
         reports_valid __bt_col_var_cursor_valid w)).
Proof.
  intros [s c updp v reads]. run_code. cbn zeta. rewrite cleared_cbt. cbn.
  split; [|split].
  - intros ->. cbn. eexists; split; reflexivity.
  - intros Hne HI1 Hins Hflag.
    apply Z.eqb_neq in Hne. rewrite Hne.
    rewrite (I1_holds c HI1). cbn.
    rewrite (deferred_to_insert c _ Hins Hflag).
    eexists; split; reflexivity.
  - intros cip Hne HI1 Hpage Hcell.
    apply Z.eqb_neq in Hne. rewrite Hne.
    rewrite (I1_holds c HI1). cbn.
    rewrite (not_deferred_to_insert c _ Hpage), Hcell.
    split; intros Hty.
    + apply Z.eqb_eq in Hty. rewrite Hty. eexists; split; reflexivity.
    + apply Z.eqb_neq in Hty. rewrite Hty. eexists; split; reflexivity.
Qed.

(** C2: row layout, cursor without insert node on a non-empty page (the
    cursor satisfying I1).  When the page has no version chains the check
    reports valid with no visible update.  When the slot has a version
    chain and the resolver answers for it: a visible tombstone makes the
    check report invalid; a visible update of another type makes it report
    valid and hand that update to the caller; no visible update makes it
    report valid with no visible update. *)
Theorem row_valid_follows_visible_update :
  forall w : world,
    let cbt := w_cbt w in
    let pg := page (ref cbt) in
    entries pg <> 0 -> I1 cbt -> ins cbt = None ->
    ((modify pg = None \/
      (exists pmod, modify pg = Some pmod /\ mod_row_update pmod = None)) ->
     reports_valid_with __bt_row_cursor_valid w None) /\
    (forall pmod upds chain upd,
        modify pg = Some pmod -> mod_row_update pmod = Some upds ->
        lookup upds (slot cbt) = Some chain ->
        __wt_txn_read (w_session w) chain = (0, upd) ->
        match upd with
        | Some u =>
          (upd_type u = WT_UPDATE_TOMBSTONE ->
           reports_invalid __bt_row_cursor_valid w) /\
          (upd_type u <> WT_UPDATE_TOMBSTONE ->
           reports_valid_with __bt_row_cursor_valid w (Some u))
        | None => reports_valid_with __bt_row_cursor_valid w None
        end).
Proof.
  intros [s c [u0|] v reads]; unfold cleared; run_code; cbn.
  all: intros Hne HI1 Hins.
  all: apply Z.eqb_neq in Hne; rewrite Hne.
  all: rewrite (I1_holds c HI1); cbn; rewrite Hins; cbn.
  all: split;
    [ intros [Hmod | [pmod [Hmod Hupds]]]; rewrite Hmod; [|rewrite Hupds];
      (eexists; repeat split; reflexivity)
    | intros pmod upds chain upd Hmod Hupds Hchain Hread;
      rewrite Hmod, Hupds, Hchain; cbn; rewrite Hread; cbn;
      destruct upd as [u|];
      [ split; intros Hty;
        [ apply Z.eqb_eq in Hty | apply Z.eqb_neq in Hty ];
        rewrite Hty; eexists; repeat split; reflexivity
      | eexists; repeat split; reflexivity ] ].
Qed.

Lemma col_fix_frame :
  writes_only_when_valid (__bt_col_fix_cursor_valid : M int).
Proof. frame_cases. Qed.

Lemma col_var_frame : writes_only_when_valid __bt_col_var_cursor_valid.
Proof. frame_cases. Qed.

Lemma row_frame : writes_only_when_valid __bt_row_cursor_valid.
Proof.   intros [s c [u0|] v reads] r w' Hrun;
  unfold reports_valid, cleared; run_code; cbn in Hrun |- *;
  case_tests; frame_done.
Qed.

Lemma col_checks_keep_updp :
  forall (w : world) r w',
    (__bt_col_fix_cursor_valid w = Returns r w' \/
     __bt_col_var_cursor_valid w = Returns r w') ->
    r = 0 /\ w_updp w' = w_updp w.
Proof.
  intros [s c u v reads] r w' [Hrun|Hrun]; run_code; cbn in Hrun;
    case_tests; split; reflexivity.
Qed.

Lemma row_updp_written_for_visible_update :
  forall (w : world) r w',
    __bt_row_cursor_valid w = Returns r w' ->
    w_updp w' = w_updp w \/
    exists pmod upds chain u,
      modify (page (ref (w_cbt w))) = Some pmod /\
      mod_row_update pmod = Some upds /\
      lookup upds (slot (w_cbt w)) = Some chain /\
      __wt_txn_read (w_session w) chain = (0, Some u) /\
      upd_type u <> WT_UPDATE_TOMBSTONE /\
      r = 0 /\ w_valid w' = true /\ w_updp w' = Some (Some u).
Proof.
  intros [s c [u0|] v reads] r w' Hrun; run_code; cbn in Hrun;
    case_tests; cbn; try (left; reflexivity).
  right. apply negb_false_iff, Z.eqb_eq in Hb2. subst.
  apply Z.eqb_neq in Hb3.
  do 4 eexists. repeat split; eauto.
Qed.

Lemma row_resolver_error_propagated :
  forall (w : world) pmod upds chain rc upd,
    entries (page (ref (w_cbt w))) <> 0 -> I1 (w_cbt w) ->
    ins (w_cbt w) = None ->
    modify (page (ref (w_cbt w))) = Some pmod ->
    mod_row_update pmod = Some upds ->
    lookup upds (slot (w_cbt w)) = Some chain ->
    __wt_txn_read (w_session w) chain = (rc, upd) -> rc <> 0 ->
    __bt_row_cursor_valid w = Returns rc (log_txn_read chain w).
Proof.
  intros [s c u v reads]; cbn.
  intros pmod upds chain rc upd Hne HI1 Hins Hmod Hupds Hchain Hread Hrc.
  run_code. cbn.
  apply Z.eqb_neq in Hne, Hrc.
  rewrite Hne, (I1_holds c HI1), Hins. cbn.
  rewrite Hmod, Hupds, Hchain. cbn. rewrite Hread, Hrc. reflexivity.
Qed.

(** C9: every validity check stores into its output cells on the valid
    path only.  A check that returns leaves the cursor, its page and the
    session as they were; [*valid] receives [true] exactly on the valid
    path, and on every other return (invalid position, resolver error) both
    cells keep the caller's values; the column checks never store into
    [*updp], the row check stores into it only a visible update that is
    not a tombstone; a resolver error is returned as it is. *)
Theorem validity_checks_write_on_valid_path_only :
  writes_only_when_valid (__bt_col_fix_cursor_valid : M int) /\
  writes_only_when_valid __bt_col_var_cursor_valid /\
  writes_only_when_valid __bt_row_cursor_valid /\
  (forall (w : world) r w',
      __bt_col_fix_cursor_valid w = Returns r w' \/
      __bt_col_var_cursor_valid w = Returns r w' ->
      r = 0 /\ w_updp w' = w_updp w) /\
  (forall (w : world) r w',
      __bt_row_cursor_valid w = Returns r w' ->
      w_updp w' = w_updp w \/
      exists pmod upds chain u,
        modify (page (ref (w_cbt w))) = Some pmod /\
        mod_row_update pmod = Some upds /\
        lookup upds (slot (w_cbt w)) = Some chain /\
        __wt_txn_read (w_session w) chain = (0, Some u) /\
        upd_type u <> WT_UPDATE_TOMBSTONE /\
        r = 0 /\ w_valid w' = true /\ w_updp w' = Some (Some u)) /\
  (forall (w : world) pmod upds chain rc upd,
      entries (page (ref (w_cbt w))) <> 0 -> I1 (w_cbt w) ->
      ins (w_cbt w) = None ->
      modify (page (ref (w_cbt w))) = Some pmod ->
      mod_row_update pmod = Some upds ->
      lookup upds (slot (w_cbt w)) = Some chain ->
      __wt_txn_read (w_session w) chain = (rc, upd) -> rc <> 0 ->
      __bt_row_cursor_valid w = Returns rc (log_txn_read chain w)).
Proof.
  repeat apply conj.
  - exact col_fix_frame.
  - exact col_var_frame.
  - exact row_frame.
  - exact col_checks_keep_updp.
  - exact row_updp_written_for_visible_update.
  - exact row_resolver_error_propagated.
Qed.

Lemma lookup_in_range {A : Type} (arr : list A) (i : Z) :
  0 <= i < Z.of_nat (List.length arr) -> exists a, lookup arr i = Some a.
Proof.
  intros [H0 Hlt]. unfold lookup.
  destruct (Z.ltb_spec i 0) as [Hneg|_]; [lia|].
  destruct (nth_error arr (Z.to_nat i)) eqn:Hn; [eauto|].
  apply nth_error_None in Hn. lia.
Qed.

Lemma lookup_out_of_range {A : Type} (arr : list A) (i : Z) :
  Z.of_nat (List.length arr) <= i -> lookup arr i = None.
Proof.
  intros Hge. unfold lookup.
  destruct (Z.ltb_spec i 0) as [Hneg|_]; [reflexivity|].
  apply nth_error_None. lia.
Qed.

Lemma not_out_of_bounds_returns {A : Type} (a : A) (w : world) :
  ~ out_of_bounds (Returns a w).
Proof. intros [arr [i H]]; discriminate H. Qed.

Lemma out_of_bounds_fault {A : Type} (arr : string) (i : Z) :
  out_of_bounds (A := A) (WT_SESSION_IMPL := WT_SESSION_IMPL)
    (Fatal (OutOfBounds arr i)).
Proof. eexists; eexists; reflexivity. Qed.

(** C10: on a non-empty page whose arrays have [entries] elements, for a
    cursor that passes the assertion of I1 and reaches the per-slot access
    (pg_var[slot] in the variable-length column check: no insert node or
    the on-page-match flag set; mod_row_update[slot] in the row check, no
    insert node and an update array present), the access is inside the
    array exactly when slot < entries.  The assertion lets the sentinel
    UINT32_MAX through, and with it the access falls outside the array. *)
Theorem slot_access_in_bounds_iff_on_page :
  forall w : world,
    let cbt := w_cbt w in
    let pg := page (ref cbt) in
    uint32 (entries pg) -> entries pg <> 0 -> I1 cbt -> 0 <= slot cbt ->
    (var_page_arrays pg ->
     ins cbt = None \/ F_ISSET cbt WT_CBT_VAR_ONPAGE_MATCH = true ->
     (~ out_of_bounds (__bt_col_var_cursor_valid w)
      <-> slot cbt < entries pg) /\
     (slot cbt = UINT32_MAX ->
      __bt_col_var_cursor_valid w
      = Fatal (OutOfBounds "pg_var" UINT32_MAX))) /\
    (forall pmod upds,
        row_page_arrays pg -> ins cbt = None ->
        modify pg = Some pmod -> mod_row_update pmod = Some upds ->
        (~ out_of_bounds (__bt_row_cursor_valid w)
         <-> slot cbt < entries pg) /\
        (slot cbt = UINT32_MAX ->
         __bt_row_cursor_valid w
         = Fatal (OutOfBounds "mod_row_update" UINT32_MAX))).
Proof.
  intros [s c u v reads]. cbn.
  intros Hu32 Hne HI1 Hslot.
  pose proof (I1_holds c HI1) as Hassert.
  apply Z.eqb_neq in Hne.
  unfold uint32 in Hu32.
  split.
  - intros Hvar Hreach. unfold var_page_arrays in Hvar.
    apply not_deferred_to_insert in Hreach.
    run_code. cbn. rewrite Hne, Hassert. cbn. rewrite Hreach.
    split; [split|].
    + intros Hin.
      destruct (Z.lt_ge_cases (slot c) (entries (page (ref c))))
        as [Hlt|Hge]; [exact Hlt|].
      rewrite lookup_out_of_range in Hin by lia.
      exfalso. apply Hin, out_of_bounds_fault.
    + intros Hlt.
      destruct (lookup_in_range (pg_var (page (ref c))) (slot c))
        as [cip Hcip]; [lia|].
      rewrite Hcip. cbn.
      destruct (__wt_cell_type (WT_COL_PTR (page (ref c)) cip) =? WT_CELL_DEL);
        apply not_out_of_bounds_returns.
    + intros Hmax. rewrite lookup_out_of_range by lia.
      rewrite Hmax. reflexivity.
  - intros pmod upds Hrow Hins Hmod Hupds.
    specialize (Hrow pmod upds Hmod Hupds).
    run_code. cbn. rewrite Hne, Hassert. cbn. rewrite Hins. cbn.
    rewrite Hmod, Hupds.
    split; [split|].
    + intros Hin.
      destruct (Z.lt_ge_cases (slot c) (entries (page (ref c))))
        as [Hlt|Hge]; [exact Hlt|].
      rewrite lookup_out_of_range in Hin by lia.
      exfalso. apply Hin, out_of_bounds_fault.
    + intros Hlt.
      destruct (lookup_in_range upds (slot c)) as [chain Hchain]; [lia|].
      rewrite Hchain. cbn.
      destruct (__wt_txn_read s chain) as [rc [upd|]]; cbn;
        destruct (rc =? 0); cbn;
        try destruct (upd_type upd =? WT_UPDATE_TOMBSTONE); cbn;
        apply not_out_of_bounds_returns.
    + intros Hmax. rewrite lookup_out_of_range by lia.
      rewrite Hmax. reflexivity.
Qed.

Lemma wrap32_odd (z : Z) : Z.odd (wrap32 z) = Z.odd z.
Proof.
  unfold wrap32.
  rewrite (Z.mod_eq z (2 ^ 32)) by lia.
  replace (z - 2 ^ 32 * (z / 2 ^ 32))
    with (z + 2 * (- (2 ^ 31 * (z / 2 ^ 32)))) by lia.
  apply Z.odd_add_mul_2.
Qed.

Lemma wrap32_small (z : Z) : 0 <= z < 2 ^ 32 -> wrap32 z = z.
Proof. intros H. apply Z.mod_small. exact H. Qed.

Lemma row_iterate_setup_run (w : world) :
  __bt_row_cursor_iterate_setup w
  = Returns tt
      (put_cbt
         (set_row_iteration_slot
            (wrap32 (logical_slot_of (position_of (w_cbt w)))) (w_cbt w))
         w).
Proof.
  destruct w as [s c u v reads].
  destruct c as [i r sl n h rc lsr ris lk lr fl].
  unfold __bt_row_cursor_iterate_setup, position_of, bind, gets, modify_world.
  destruct h as [h|]; cbn -[wrap32 ptr_eqb].
  - destruct (ptr_eqb (Some h) (WT_ROW_INSERT_SMALLEST (page r)));
      cbn -[wrap32].
    + reflexivity.
    + unfold wrap32.
      rewrite Z.mul_mod_idemp_l, Z.add_mod_idemp_l by lia. reflexivity.
  - unfold wrap32. rewrite Z.mul_mod_idemp_l by lia. reflexivity.
Qed.

Lemma logical_slot_of_injective (p q : row_position) :
  match p with OnPageSlot s | SlotInsertList s => 0 <= s | _ => True end ->
  match q with OnPageSlot s | SlotInsertList s => 0 <= s | _ => True end ->
  logical_slot_of p = logical_slot_of q -> p = q.
Proof.
  destruct p as [s| |s], q as [t| |t]; cbn; intros Hp Hq H;
    try reflexivity; try (f_equal; lia); lia.
Qed.

Lemma position_slot (c : WT_CURSOR_BTREE) (s : Z) :
  position_of c = OnPageSlot s \/ position_of c = SlotInsertList s ->
  s = slot c.
Proof.
  unfold position_of.
  destruct (ins_head c) as [h|];
    [destruct (ptr_eqb _ _)|]; intros [H|H]; congruence.
Qed.

Lemma logical_slot_no_wrap (c : WT_CURSOR_BTREE) :
  0 <= slot c < 2 ^ 31 - 1 ->
  wrap32 (logical_slot_of (position_of c)) = logical_slot_of (position_of c).
Proof.
  intros Hs. apply wrap32_small.
  destruct (position_of c) as [s| |s] eqn:Hp; cbn; try lia;
    rewrite (position_slot c s) by (rewrite Hp; auto); lia.
Qed.

(** C6 (as the code has it): the row iteration set-up stores the logical
    slot of the cursor's position computed in unsigned 32-bit arithmetic:
    (s+1)*2 for on-page slot s, 1 for the smallest-key insert list,
    (s+1)*2+1 for any other insert list, each modulo 2^32.  Insert lists
    always get odd numbers and on-page slots even ones.  For slots below
    2^31 - 1 nothing wraps: the stored value is the unbounded one, and two
    cursors that receive the same logical slot stand at the same
    position. *)
Theorem row_logical_slot_mapping :
  forall w1 w2 : world,
    let c1 := w_cbt w1 in
    let c2 := w_cbt w2 in
    (sets_logical_slot w1 (wrap32 (logical_slot_of (position_of c1))) /\
     forall n, sets_logical_slot w1 n ->
               Z.odd n = is_insert_list (position_of c1)) /\
    (0 <= slot c1 < 2 ^ 31 - 1 ->
     sets_logical_slot w1 (logical_slot_of (position_of c1))) /\
    (0 <= slot c1 < 2 ^ 31 - 1 -> 0 <= slot c2 < 2 ^ 31 - 1 ->
     forall n, sets_logical_slot w1 n -> sets_logical_slot w2 n ->
               position_of c1 = position_of c2).
Proof.
  intros w1 w2 c1 c2. unfold sets_logical_slot.
  rewrite !row_iterate_setup_run. fold c1. fold c2.
  split; [split|split].
  - eexists; split; reflexivity.
  - intros n [w' [H Hn]]. inversion H; subst; cbn.
    rewrite wrap32_odd.
    destruct (position_of c1) as [s| |s]; cbn.
    + rewrite Z.odd_mul. apply andb_false_r.
    + reflexivity.
    + rewrite Z.add_comm, Z.mul_comm. apply Z.odd_add_mul_2.
  - intros Hs. eexists; split; [reflexivity|]. cbn.
    apply logical_slot_no_wrap. exact Hs.
  - intros Hs1 Hs2 n [w1' [H1 Hn1]] [w2' [H2 Hn2]].
    inversion H1; subst; clear H1. inversion H2; subst; clear H2.
    cbn in Hn2.
    rewrite !logical_slot_no_wrap in Hn2 by assumption.
    apply logical_slot_of_injective; [| |symmetry; exact Hn2].
    + destruct (position_of c1) as [s| |s] eqn:Hp; trivial;
        rewrite (position_slot c1 s) by (rewrite Hp; auto); lia.
    + destruct (position_of c2) as [s| |s] eqn:Hp; trivial;
        rewrite (position_slot c2 s) by (rewrite Hp; auto); lia.
Qed.

Lemma col_in_order_test (next : bool) (c : WT_CURSOR_BTREE) :
  let cmp :=
    if negb (lastrecno c =? WT_RECNO_OOB) then
      if lastrecno c >? recno c then 1
      else if lastrecno c <? recno c then -1 else 0
    else 0 in
  (lastrecno c =? WT_RECNO_OOB)
  || next && (cmp <? 0) || negb next && (cmp >? 0) = true
  <-> col_in_order next c.
Proof.
  unfold col_in_order. cbv zeta.
  destruct (Z.eqb_spec (lastrecno c) WT_RECNO_OOB) as [Heq|Hne]; cbn.
  - split; [intros _; left; exact Heq | reflexivity].
  - destruct (Z.gtb_spec (lastrecno c) (recno c)),
             (Z.ltb_spec (lastrecno c) (recno c)), next; cbn;
      split; intros Hx; try reflexivity; try discriminate; try lia;
      try (right; lia).
Qed.

Lemma col_check_run (next : bool) (w : world) :
  __bt_col_cursor_key_order_check next w
  = if (lastrecno (w_cbt w) =? WT_RECNO_OOB)
       || next && ((if negb (lastrecno (w_cbt w) =? WT_RECNO_OOB) then
                      if lastrecno (w_cbt w) >? recno (w_cbt w) then 1
                      else if lastrecno (w_cbt w) <? recno (w_cbt w)
                           then -1 else 0
                    else 0) <? 0)
       || negb next && ((if negb (lastrecno (w_cbt w) =? WT_RECNO_OOB) then
                      if lastrecno (w_cbt w) >? recno (w_cbt w) then 1
                      else if lastrecno (w_cbt w) <? recno (w_cbt w)
                           then -1 else 0
                    else 0) >? 0)
    then Returns 0 (put_cbt (set_lastrecno (recno (w_cbt w)) (w_cbt w)) w)
    else order_violation next (DiagRecno (lastrecno (w_cbt w)))
                              (DiagRecno (recno (w_cbt w))).
Proof.
  destruct w as [s c u v reads]. run_code. cbn.
  match goal with
  | |- (if ?b then _ else _) _ = _ => destruct b; reflexivity
  end.
Qed.

Lemma col_check_in_order (next : bool) (w : world) :
  col_in_order next (w_cbt w) ->
  __bt_col_cursor_key_order_check next w
  = Returns 0 (put_cbt (set_lastrecno (recno (w_cbt w)) (w_cbt w)) w).
Proof.
  intros H. rewrite col_check_run.
  apply col_in_order_test in H. cbv zeta in H. rewrite H. reflexivity.
Qed.

Lemma col_check_out_of_order (next : bool) (w : world) :
  ~ col_in_order next (w_cbt w) ->
  __bt_col_cursor_key_order_check next w
  = order_violation next (DiagRecno (lastrecno (w_cbt w)))
                         (DiagRecno (recno (w_cbt w))).
Proof.
  intros H. rewrite col_check_run.
  match goal with
  | |- (if ?b then _ else _) = _ => destruct b eqn:Hb; [|reflexivity]
  end.
  exfalso. apply H. apply (col_in_order_test next (w_cbt w)). exact Hb.
Qed.

Lemma row_in_order_test (next : bool) (c : WT_CURSOR_BTREE) (cmp : Z) :
  (size (lastkey c) =? 0) || next && (cmp <? 0) || negb next && (cmp >? 0)
  = true
  <-> row_in_order next c cmp.
Proof.
  unfold row_in_order.
  destruct (Z.eqb_spec (size (lastkey c)) 0) as [Heq|Hne]; cbn.
  - split; [intros _; left; exact Heq | reflexivity].
  - destruct (Z.ltb_spec cmp 0), (Z.gtb_spec cmp 0), next; cbn;
      split; intros Hx; try reflexivity; try discriminate; try lia;
      try (right; lia).
Qed.

Section RowCheck.

Variable next : bool.
Variable w : world.

Let s := w_session w.
Let c := w_cbt w.
Let current := key (iface c).
Let compared :=
  __wt_compare s (collator (S2BT s)) (lastkey c) current.

Lemma row_check_compare_error :
  size (lastkey c) <> 0 -> fst compared <> 0 ->
  __bt_row_cursor_key_order_check next w = Returns (fst compared) w.
Proof.
  intros Hsize Hrc. subst compared current c s.
  destruct w as [s c u v reads]. run_code. cbn in *.
  apply Z.eqb_neq in Hsize, Hrc. rewrite Hsize. cbn. rewrite Hrc.
  reflexivity.
Qed.

Lemma row_check_in_order :
  (size (lastkey c) <> 0 -> fst compared = 0) ->
  row_in_order next c (snd compared) ->
  __bt_row_cursor_key_order_check next w
  = Returns (fst (__wt_buf_set s (lastkey c) (data current) (size current)))
      (put_cbt
         (set_lastkey
            (snd (__wt_buf_set s (lastkey c) (data current) (size current)))
            c) w).
Proof.
  intros Hcmp Hord. subst compared current c s.
  destruct w as [s c u v reads]. run_code. cbn in *.
  destruct (Z.eqb_spec (size (lastkey c)) 0) as [Heq|Hne]; cbn.
  - reflexivity.
  - rewrite (Hcmp Hne). cbn.
    apply row_in_order_test in Hord.
    apply Z.eqb_neq in Hne. rewrite Hne in Hord. cbn in Hord.
    rewrite Hord. reflexivity.
Qed.

Hypothesis Hbaseline : size (lastkey c) <> 0.
Hypothesis Hcompared : fst compared = 0.
Hypothesis Hviolation : ~ row_in_order next c (snd compared).

Let first_alloc := __wt_scr_alloc s 512.
Let second_alloc := __wt_scr_alloc (snd first_alloc) 512.

Lemma row_check_first_alloc_error :
  fst (fst first_alloc) <> 0 ->
  __bt_row_cursor_key_order_check next w
  = Returns (fst (fst first_alloc))
      (put_session
         (__wt_scr_free
            (__wt_scr_free (snd first_alloc) (snd (fst first_alloc))) None)
         w).
Proof.
  intros Hrc. subst second_alloc first_alloc compared current c s.
  destruct w as [s c u v reads]. run_code. cbn in *.
  apply Z.eqb_neq in Hbaseline, Hrc.
  rewrite Hbaseline. cbn. rewrite Hcompared. cbn.
  destruct (next && _ || negb next && _) eqn:Htest.
  - exfalso. apply Hviolation. apply row_in_order_test.
    rewrite Hbaseline. exact Htest.
  - cbn. rewrite Hrc. reflexivity.
Qed.

Lemma row_check_second_alloc_error :
  fst (fst first_alloc) = 0 -> fst (fst second_alloc) <> 0 ->
  __bt_row_cursor_key_order_check next w
  = Returns (fst (fst second_alloc))
      (put_session
         (__wt_scr_free
            (__wt_scr_free (snd second_alloc) (snd (fst first_alloc)))
            (snd (fst second_alloc)))
         w).
Proof.
  intros Hok Hrc. subst second_alloc first_alloc compared current c s.
  destruct w as [s c u v reads]. run_code. cbn in *.
  apply Z.eqb_neq in Hbaseline, Hrc.
  rewrite Hbaseline. cbn. rewrite Hcompared. cbn.
  destruct (next && _ || negb next && _) eqn:Htest.
  - exfalso. apply Hviolation. apply row_in_order_test.
    rewrite Hbaseline. exact Htest.
  - cbn. rewrite Hok. cbn. rewrite Hrc. reflexivity.
Qed.

Lemma row_check_out_of_order :
  fst (fst first_alloc) = 0 -> fst (fst second_alloc) = 0 ->
  __bt_row_cursor_key_order_check next w
  = order_violation next
      (DiagKey (__wt_buf_set_printable_format (snd second_alloc)
                  (data (lastkey c)) (size (lastkey c))
                  (key_format (S2BT s)) (snd (fst first_alloc))))
      (DiagKey (__wt_buf_set_printable_format (snd second_alloc)
                  (data current) (size current)
                  (key_format (S2BT s)) (snd (fst second_alloc)))).
Proof.
  intros Hok1 Hok2. subst second_alloc first_alloc compared current c s.
  destruct w as [s c u v reads]. run_code. cbn in *.
  apply Z.eqb_neq in Hbaseline.
  rewrite Hbaseline. cbn. rewrite Hcompared. cbn.
  destruct (next && _ || negb next && _) eqn:Htest.
  - exfalso. apply Hviolation. apply row_in_order_test.
    rewrite Hbaseline. exact Htest.
  - cbn. rewrite Hok1. cbn. rewrite Hok2. reflexivity.
Qed.

End RowCheck.

Lemma buf_set_installs (s : WT_SESSION_IMPL) (buf : WT_ITEM) (d : list byte)
    (n : Z) :
  fst (__wt_buf_set s buf d n) = 0 ->
  size (snd (__wt_buf_set s buf d n)) = n /\
  item_bytes (snd (__wt_buf_set s buf d n)) = firstn (Z.to_nat n) d.
Proof.
  destruct (__wt_buf_set s buf d n) as [rc b] eqn:H. cbn. intros ->.
  eapply __wt_buf_set_copies. exact H.
Qed.

(** C5 (as the code has it).  Column store: the check returns 0 and
    installs the current record number as baseline exactly when there is
    no baseline or the previous record number is strictly below (forward)
    or strictly above (backward) the current one; in every other case,
    equality included, it takes the fatal path carrying both record
    numbers.  Row store: with no baseline or with the collator's answer
    strictly negative (forward) or strictly positive (backward), the check
    copies the current key into the baseline and returns the copy's return
    code, 0 with the baseline equal to the key when the copy succeeds; in
    every other case, once both scratch buffers are allocated, it takes the
    fatal path carrying both keys in printable form.  A failure of the
    collator or of a scratch allocation is returned as an ordinary error
    code. *)
Theorem key_order_check_outcomes :
  forall (next : bool) (w : world),
    let s := w_session w in
    let c := w_cbt w in
    let current := key (iface c) in
    let compared := __wt_compare s (collator (S2BT s)) (lastkey c) current in
    let installed :=
      __wt_buf_set s (lastkey c) (data current) (size current) in
    let first_alloc := __wt_scr_alloc s 512 in
    let second_alloc := __wt_scr_alloc (snd first_alloc) 512 in
    (col_in_order next c ->
     __bt_col_cursor_key_order_check next w
     = Returns 0 (put_cbt (set_lastrecno (recno c) c) w)) /\
    (~ col_in_order next c ->
     __bt_col_cursor_key_order_check next w
     = order_violation next (DiagRecno (lastrecno c)) (DiagRecno (recno c))) /\
    ((size (lastkey c) <> 0 -> fst compared = 0) ->
     row_in_order next c (snd compared) ->
     __bt_row_cursor_key_order_check next w
     = Returns (fst installed) (put_cbt (set_lastkey (snd installed) c) w) /\
     (fst installed = 0 ->
      size (snd installed) = size current /\
      item_bytes (snd installed) = item_bytes current)) /\
    (size (lastkey c) <> 0 -> fst compared = 0 ->
     ~ row_in_order next c (snd compared) ->
     (fst (fst first_alloc) = 0 -> fst (fst second_alloc) = 0 ->
      __bt_row_cursor_key_order_check next w
      = order_violation next
          (DiagKey (__wt_buf_set_printable_format (snd second_alloc)
                      (data (lastkey c)) (size (lastkey c))
                      (key_format (S2BT s)) (snd (fst first_alloc))))
          (DiagKey (__wt_buf_set_printable_format (snd second_alloc)
                      (data current) (size current)
                      (key_format (S2BT s)) (snd (fst second_alloc))))) /\
     (fst (fst first_alloc) <> 0 ->
      __bt_row_cursor_key_order_check next w
      = Returns (fst (fst first_alloc))
          (put_session
             (__wt_scr_free
                (__wt_scr_free (snd first_alloc) (snd (fst first_alloc)))
                None) w)) /\
     (fst (fst first_alloc) = 0 -> fst (fst second_alloc) <> 0 ->
      __bt_row_cursor_key_order_check next w
      = Returns (fst (fst second_alloc))
          (put_session
             (__wt_scr_free
                (__wt_scr_free (snd second_alloc) (snd (fst first_alloc)))
                (snd (fst second_alloc))) w))) /\
    (size (lastkey c) <> 0 -> fst compared <> 0 ->
     __bt_row_cursor_key_order_check next w = Returns (fst compared) w).
Proof.
  intros next w s c current compared installed first_alloc second_alloc.
  split; [|split; [|split; [|split]]].
  - apply col_check_in_order.
  - apply col_check_out_of_order.
  - intros Hcmp Hord. split.
    + apply row_check_in_order; assumption.
    + apply buf_set_installs.
  - intros Hsize Hcmp Hord. split; [|split].
    + apply row_check_out_of_order; assumption.
    + apply row_check_first_alloc_error; assumption.
    + apply row_check_second_alloc_error; assumption.
  - apply row_check_compare_error.
Qed.

Lemma reset_run (w : world) :
  __bt_cursor_key_order_reset w
  = Returns tt
      (put_cbt
         (set_lastrecno WT_RECNO_OOB
            (set_lastkey (set_size 0 (lastkey (w_cbt w))) (w_cbt w))) w).
Proof. reflexivity. Qed.

(** C8 (as the code has it): reset clears the baseline (out-of-band
    [lastrecno], [lastkey] of size 0).  The check that follows never takes
    the fatal path, whatever the position and the direction: the column
    check returns 0 with the current record number as baseline; the row
    check does not consult the collator, copies the current key into the
    baseline and returns the copy's return code, and when the copy succeeds
    the baseline holds the current key. *)
Theorem check_after_reset_installs_baseline :
  forall (next : bool) (w : world),
    let s := w_session w in
    let c := w_cbt w in
    let current := key (iface c) in
    let fresh :=
      set_lastrecno WT_RECNO_OOB (set_lastkey (set_size 0 (lastkey c)) c) in
    let installed :=
      __wt_buf_set s (set_size 0 (lastkey c)) (data current) (size current) in
    lastrecno fresh = WT_RECNO_OOB /\ size (lastkey fresh) = 0 /\
    (__bt_cursor_key_order_reset ;;; __bt_col_cursor_key_order_check next) w
    = Returns 0 (put_cbt (set_lastrecno (recno c) fresh) w) /\
    (__bt_cursor_key_order_reset ;;; __bt_row_cursor_key_order_check next) w
    = Returns (fst installed) (put_cbt (set_lastkey (snd installed) fresh) w)
    /\
    (fst installed = 0 ->
     size (snd installed) = size current /\
     item_bytes (snd installed) = item_bytes current).
Proof.
  intros next w s c current fresh installed.
  split; [reflexivity | split; [reflexivity|]].
  unfold bind. rewrite reset_run. fold c. fold fresh.
  split; [|split].
  - rewrite col_check_in_order by (left; reflexivity).
    destruct w; reflexivity.
  - rewrite row_check_in_order.
    + destruct w; reflexivity.
    + intros H. exfalso. apply H. reflexivity.
    + left. reflexivity.
  - apply buf_set_installs.
Qed.

End Properties.



Section InsertPrecedence.

Context {WT_SESSION_IMPL : Type}.

(** C4: row layout, non-empty page, insert node set.  Whatever the page's
    modify structure holds and whatever the engine's resolver does, two
    runs that differ in the update chains and in the resolver are observed
    alike; for a cursor satisfying I1 the check returns 0 without storing
    into either cell and without consulting the resolver, so that both
    runs report the position invalid. *)
Theorem row_insert_node_precedence :
  forall (E1 E2 : Engine WT_SESSION_IMPL) (w : world WT_SESSION_IMPL)
         (m1 m2 : option WT_PAGE_MODIFY),
    let cbt := w_cbt w in
    let pg := page (ref cbt) in
    let w1 := put_cbt (set_page (set_modify m1 pg) cbt) w in
    let w2 := put_cbt (set_page (set_modify m2 pg) cbt) w in
    entries pg <> 0 -> ins cbt <> None ->
    observation (__bt_row_cursor_valid (E := E2) w2)
    = observation (__bt_row_cursor_valid (E := E1) w1) /\
    (I1 cbt ->
     observation (__bt_row_cursor_valid (E := E1) w1)
     = Some (0, w_valid w, w_updp w, w_txn_reads w) /\
     reports_invalid (__bt_row_cursor_valid (E := E1)) w1 /\
     reports_invalid (__bt_row_cursor_valid (E := E2)) w2).
Proof.
  intros E1 E2 [s c [u|] v reads] m1 m2; cbv zeta; cbn.
  all: intros Hne Hins.
  all: apply Z.eqb_neq in Hne.
  all: assert (Hsome : is_some (ins c) = true)
    by (destruct (ins c); [reflexivity | congruence]).
  all: unfold reports_invalid, cleared; run_code; cbn.
  all: rewrite Hne; cbn.
  all: split;
    [ destruct ((slot c =? UINT32_MAX) || (slot c <? entries (page (ref c))));
      cbn; rewrite ?Hsome; reflexivity
    | intros HI1; rewrite (I1_holds c HI1); cbn; rewrite Hsome; cbn;
      repeat split; eexists; split; reflexivity ].
Qed.

End InsertPrecedence.

(** * The properties at work on the small engine *)

(** C3 at work: on the three-entry page whose slot 1 is deleted, slots 0
    and 2 are valid and slot 1 is not; an empty page and a cursor deferred
    to its insert node are invalid. *)
Lemma col_var_valid_decision_witness :
  reports_valid (__bt_col_var_cursor_valid (E := demo_engine))
    (var_world 0 None 0) /\
  reports_invalid (__bt_col_var_cursor_valid (E := demo_engine))
    (var_world 1 None 0) /\
  reports_valid (__bt_col_var_cursor_valid (E := demo_engine))
    (var_world 2 None 0) /\
  reports_invalid (__bt_col_var_cursor_valid (E := demo_engine))
    empty_var_world /\
  reports_invalid (__bt_col_var_cursor_valid (E := demo_engine))
    (var_world 1 (Some 7) 0).
Proof.
  repeat apply conj.
  - destruct (col_var_valid_decision (E := demo_engine) (var_world 0 None 0))
      as [_ [_ H]].
    apply (H 16); [cbn; lia | right; cbn; lia | left; reflexivity
                  | reflexivity | cbn; lia].
  - destruct (col_var_valid_decision (E := demo_engine) (var_world 1 None 0))
      as [_ [_ H]].
    apply (H 80); [cbn; lia | right; cbn; lia | left; reflexivity
                  | reflexivity | reflexivity].
  - destruct (col_var_valid_decision (E := demo_engine) (var_world 2 None 0))
      as [_ [_ H]].
    apply (H 32); [cbn; lia | right; cbn; lia | left; reflexivity
                  | reflexivity | cbn; lia].
  - destruct (col_var_valid_decision (E := demo_engine) empty_var_world)
      as [H _].
    apply H. reflexivity.
  - destruct (col_var_valid_decision (E := demo_engine)
                (var_world 1 (Some 7) 0)) as [_ [H _]].
    apply H; [cbn; lia | right; cbn; lia | cbn; congruence | reflexivity].
Defined.

(** C2 at work on the row page: slot 0 has a visible value, slot 1 a
    visible tombstone, slot 2 no update, and a page without update
    structures has no version chain. *)
Lemma row_valid_follows_visible_update_witness :
  reports_valid_with (__bt_row_cursor_valid (E := demo_engine))
    (row_world row_page 0 None) (Some upd_value) /\
  reports_invalid (__bt_row_cursor_valid (E := demo_engine))
    (row_world row_page 1 None) /\
  reports_valid_with (__bt_row_cursor_valid (E := demo_engine))
    (row_world row_page 2 None) None /\
  reports_valid_with (__bt_row_cursor_valid (E := demo_engine))
    (row_world (mkPage 7 3 [] None) 0 None) None.
Proof.
  repeat apply conj.
  - destruct (row_valid_follows_visible_update (E := demo_engine)
                (row_world row_page 0 None)) as [_ H];
      [cbn; lia | right; cbn; lia | reflexivity |].
    specialize (H row_updates _ (Some upd_value) (Some upd_value)
                  eq_refl eq_refl eq_refl eq_refl).
    apply H. vm_compute. discriminate.
  - destruct (row_valid_follows_visible_update (E := demo_engine)
                (row_world row_page 1 None)) as [_ H];
      [cbn; lia | right; cbn; lia | reflexivity |].
    specialize (H row_updates _ (Some upd_removed) (Some upd_removed)
                  eq_refl eq_refl eq_refl eq_refl).
    apply H. reflexivity.
  - destruct (row_valid_follows_visible_update (E := demo_engine)
                (row_world row_page 2 None)) as [_ H];
      [cbn; lia | right; cbn; lia | reflexivity |].
    exact (H row_updates _ None None eq_refl eq_refl eq_refl eq_refl).
  - destruct (row_valid_follows_visible_update (E := demo_engine)
                (row_world (mkPage 7 3 [] None) 0 None)) as [H _];
      [cbn; lia | right; cbn; lia | reflexivity |].
    apply H. left. reflexivity.
Defined.

(** C4 at work: a cursor on an insert node at slot 1, once over the page
    with its update chains and the visibility resolver, once over the page
    without them and a resolver that reports conflicts. *)
Lemma row_insert_node_precedence_witness :
  observation (__bt_row_cursor_valid (E := conflict_engine)
                 (row_world (mkPage 7 3 [] None) 1 (Some 42)))
  = observation (__bt_row_cursor_valid (E := demo_engine)
                   (row_world row_page 1 (Some 42))) /\
  observation (__bt_row_cursor_valid (E := demo_engine)
                 (row_world row_page 1 (Some 42)))
  = Some (0, false, Some None, []).
Proof.
  destruct (row_insert_node_precedence demo_engine conflict_engine
              (row_world row_page 1 (Some 42)) (Some row_updates) None)
    as [H1 H2]; [cbn; lia | cbn; congruence |].
  split; [exact H1|].
  destruct H2 as [H2 _]; [right; cbn; lia | exact H2].
Defined.

(** C10 at work: slot 1 of the three-entry pages is inside the arrays; the
    sentinel passes the assertion and falls outside them. *)
Lemma slot_access_in_bounds_iff_on_page_witness :
  ~ out_of_bounds (__bt_col_var_cursor_valid (E := demo_engine)
                     (var_world 1 None 0)) /\
  ~ out_of_bounds (__bt_row_cursor_valid (E := demo_engine)
                     (row_world row_page 1 None)) /\
  __bt_col_var_cursor_valid (E := demo_engine) (var_world UINT32_MAX None 0)
  = Fatal (OutOfBounds "pg_var" UINT32_MAX) /\
  __bt_row_cursor_valid (E := demo_engine) (row_world row_page UINT32_MAX None)
  = Fatal (OutOfBounds "mod_row_update" UINT32_MAX).
Proof.
  assert (Hrow : row_page_arrays row_page).
  { intros pmod upds Hm Hu. cbn in Hm. inversion Hm; subst.
    cbn in Hu. inversion Hu; subst. reflexivity. }
  repeat apply conj.
  - destruct (slot_access_in_bounds_iff_on_page (E := demo_engine)
                (var_world 1 None 0)) as [H _];
      [cbn; unfold uint32, UINT32_MAX; lia | cbn; lia | right; cbn; lia
      | cbn; lia |].
    apply H; [reflexivity | left; reflexivity | cbn; lia].
  - destruct (slot_access_in_bounds_iff_on_page (E := demo_engine)
                (row_world row_page 1 None)) as [_ H];
      [cbn; unfold uint32, UINT32_MAX; lia | cbn; lia | right; cbn; lia
      | cbn; lia |].
    apply (H row_updates _ Hrow eq_refl eq_refl eq_refl). cbn; lia.
  - destruct (slot_access_in_bounds_iff_on_page (E := demo_engine)
                (var_world UINT32_MAX None 0)) as [H _];
      [cbn; unfold uint32, UINT32_MAX; lia | cbn; lia | left; reflexivity
      | cbn; unfold UINT32_MAX; lia |].
    apply H; [reflexivity | left; reflexivity | reflexivity].
  - destruct (slot_access_in_bounds_iff_on_page (E := demo_engine)
                (row_world row_page UINT32_MAX None)) as [_ H];
      [cbn; unfold uint32, UINT32_MAX; lia | cbn; lia | left; reflexivity
      | cbn; unfold UINT32_MAX; lia |].
    apply (H row_updates _ Hrow eq_refl eq_refl eq_refl). reflexivity.
Defined.

(** C6 at work on the row page: on-page slot 0 gets logical slot 2, the
    smallest-key insert list 1, the insert list after slot 0 gets 3, and
    on-page slot 1 gets 4, the logical slot of no other position. *)
Lemma row_logical_slot_mapping_witness :
  sets_logical_slot (E := demo_engine) (list_world 0 None) 2 /\
  sets_logical_slot (E := demo_engine) (list_world 0 (Some 1000)) 1 /\
  sets_logical_slot (E := demo_engine) (list_world 0 (Some 1234)) 3 /\
  (forall n,
      sets_logical_slot (E := demo_engine) (list_world 1 None) n ->
      sets_logical_slot (E := demo_engine) (list_world 0 (Some 1234)) n ->
      position_of (E := demo_engine) (w_cbt (list_world 1 None))
      = position_of (E := demo_engine) (w_cbt (list_world 0 (Some 1234)))).
Proof.
  repeat apply conj.
  - destruct (row_logical_slot_mapping (E := demo_engine)
                (list_world 0 None) (list_world 0 None)) as [_ [H _]].
    apply H. cbn. lia.
  - destruct (row_logical_slot_mapping (E := demo_engine)
                (list_world 0 (Some 1000)) (list_world 0 None))
      as [_ [H _]].
    apply H. cbn. lia.
  - destruct (row_logical_slot_mapping (E := demo_engine)
                (list_world 0 (Some 1234)) (list_world 0 None))
      as [_ [H _]].
    apply H. cbn. lia.
  - destruct (row_logical_slot_mapping (E := demo_engine)
                (list_world 1 None) (list_world 0 (Some 1234)))
      as [_ [_ H]].
    apply H; cbn; lia.
Defined.

(** C5 at work: record numbers 10 then 11 pass a forward check and 10
    then 10 take the fatal path; keys [a] then [b] pass a forward check
    and [b] then [a] take the fatal path. *)
Lemma key_order_check_outcomes_witness :
  __bt_col_cursor_key_order_check (E := demo_engine) true (recno_world 10 11)
  = Returns 0 (recno_world 11 11) /\
  __bt_col_cursor_key_order_check (E := demo_engine) true (recno_world 10 10)
  = order_violation true (DiagRecno 10) (DiagRecno 10) /\
  __bt_row_cursor_key_order_check (E := demo_engine) true
    (key_world 2048 [x61] [x62])
  = Returns 0 (key_world 2048 [x62] [x62]) /\
  __bt_row_cursor_key_order_check (E := demo_engine) true
    (key_world 2048 [x62] [x61])
  = order_violation true (DiagKey "b") (DiagKey "a").
Proof.
  repeat apply conj.
  - destruct (key_order_check_outcomes (E := demo_engine) true
                (recno_world 10 11)) as [H _].
    apply H. right. left. cbn. split; [reflexivity | lia].
  - destruct (key_order_check_outcomes (E := demo_engine) true
                (recno_world 10 10)) as [_ [H _]].
    apply H. unfold col_in_order. cbn. intros [Hx|[[_ Hx]|[Hx _]]];
      [discriminate Hx | lia | discriminate Hx].
  - destruct (key_order_check_outcomes (E := demo_engine) true
                (key_world 2048 [x61] [x62])) as [_ [_ [H _]]].
    apply H; [reflexivity|].
    right. left. split; [reflexivity | vm_compute; reflexivity].
  - destruct (key_order_check_outcomes (E := demo_engine) true
                (key_world 2048 [x62] [x61])) as [_ [_ [_ [H _]]]].
    destruct H as [H _]; [cbn; lia | reflexivity | |].
    + unfold row_in_order. cbn. intros [Hx|[[_ Hx]|[Hx _]]];
        [discriminate Hx | vm_compute in Hx; discriminate Hx
        | discriminate Hx].
    + apply H; reflexivity.
Defined.

(** C9 at work: the row check on slot 1 (tombstone) stores nothing; on
    slot 0 it leaves the cursor alone; a conflict reported by the resolver
    is returned as it is, with both cells untouched. *)
Lemma validity_checks_write_on_valid_path_only_witness :
  (forall r w',
      __bt_row_cursor_valid (E := demo_engine) (row_world row_page 1 None)
      = Returns r w' ->
      w_valid w' = false /\ w_updp w' = Some None) /\
  (forall r w',
      __bt_row_cursor_valid (E := demo_engine) (row_world row_page 0 None)
      = Returns r w' ->
      w_cbt w' = w_cbt (row_world row_page 0 None)) /\
  __bt_row_cursor_valid (E := demo_engine) (row_world conflict_page 0 None)
  = Returns WT_PREPARE_CONFLICT
      (log_txn_read (Some upd_conflict) (row_world conflict_page 0 None)).
Proof.
  destruct (validity_checks_write_on_valid_path_only (E := demo_engine))
    as [_ [_ [Hrow [_ [_ Herr]]]]].
  repeat apply conj.
  - intros r w' Hrun. destruct (Hrow _ r w' Hrun) as [_ [_ Hcells]].
    destruct Hcells as [[_ [[w'' [Hv1 Hv2]] _]] | [_ [Hv Hu]]].
    + vm_compute in Hv1. inversion Hv1; subst. discriminate Hv2.
    + split; [exact Hv | exact Hu].
  - intros r w' Hrun. destruct (Hrow _ r w' Hrun) as [Hc _]. exact Hc.
  - apply (Herr (row_world conflict_page 0 None) conflict_updates
             [Some upd_conflict] (Some upd_conflict) WT_PREPARE_CONFLICT None);
      [cbn; lia | right; cbn; lia | reflexivity | reflexivity | reflexivity
      | reflexivity | reflexivity | unfold WT_PREPARE_CONFLICT; lia].
Defined.

(** C8 at work: after reset, a forward check at record 7 and a backward
    check at key [a] both pass and install the position as baseline,
    although the old baselines (record 9, key [b]) would have made the
    forward check at record 7 fail. *)
Lemma check_after_reset_installs_baseline_witness :
  (__bt_cursor_key_order_reset (E := demo_engine) ;;;
   __bt_col_cursor_key_order_check (E := demo_engine) true)
    (recno_world 9 7)
  = Returns 0 (recno_world 7 7) /\
  exists w',
    (__bt_cursor_key_order_reset (E := demo_engine) ;;;
     __bt_row_cursor_key_order_check (E := demo_engine) false)
      (key_world 2048 [x62] [x61])
    = Returns 0 w' /\
    item_bytes (lastkey (w_cbt w')) = [x61].
Proof.
  destruct (check_after_reset_installs_baseline (E := demo_engine) true
              (recno_world 9 7)) as [_ [_ [Hcol _]]].
  destruct (check_after_reset_installs_baseline (E := demo_engine) false
              (key_world 2048 [x62] [x61])) as [_ [_ [_ [Hrow Hkey]]]].
  split.
  - exact Hcol.
  - eexists. split; [exact Hrow|].
    destruct Hkey as [_ Hbytes]; [reflexivity|]. exact Hbytes.
Defined.

(** C6, refuted as stated: on a page with 2^31 + 1 entries the on-page
    slots 0 and 2^31 both receive logical slot 2, which is not
    (2^31 + 1) * 2. *)
Lemma distinct_slots_share_logical_slot :
  I1 (w_cbt (slot_world 0 None)) /\
  I1 (w_cbt (slot_world 2147483648 None)) /\
  position_of (E := demo_engine) (w_cbt (slot_world 0 None)) = OnPageSlot 0 /\
  position_of (E := demo_engine) (w_cbt (slot_world 2147483648 None))
  = OnPageSlot 2147483648 /\
  sets_logical_slot (E := demo_engine) (slot_world 0 None) 2 /\
  sets_logical_slot (E := demo_engine) (slot_world 2147483648 None) 2 /\
  logical_slot_of (OnPageSlot 2147483648) <> 2.
Proof.
  repeat apply conj; try reflexivity.
  - right. cbn. lia.
  - right. cbn. lia.
  - eexists. split; [lazy; reflexivity | reflexivity].
  - eexists. split; [lazy; reflexivity | reflexivity].
  - cbn. lia.
Qed.

(** C5, refuted as stated: a forward row check with baseline [b] and
    current key [a] on a session that cannot allocate scratch memory
    returns ENOMEM, an ordinary error code, and not the fatal signal. *)
Lemma out_of_order_row_keys_without_memory :
  size (lastkey (w_cbt (key_world 0 [x62] [x61]))) <> 0 /\
  __wt_compare (Engine := demo_engine) 0
    (collator (S2BT (Engine := demo_engine) 0))
    (lastkey (w_cbt (key_world 0 [x62] [x61])))
    (key (iface (w_cbt (key_world 0 [x62] [x61])))) = (0, 1) /\
  __bt_row_cursor_key_order_check (E := demo_engine) true
    (key_world 0 [x62] [x61])
  = Returns ENOMEM (key_world 0 [x62] [x61]).
Proof.
  repeat apply conj; try reflexivity.
  cbn. lia.
Qed.

(** C8, refuted as stated: after reset, the row check on a session that
    cannot allocate the baseline's memory returns ENOMEM and leaves the
    baseline empty. *)
Lemma check_after_reset_fails_without_memory :
  exists w',
    (__bt_cursor_key_order_reset (E := demo_engine) ;;;
     __bt_row_cursor_key_order_check (E := demo_engine) true)
      (key_world 0 [x62] [x61])
    = Returns ENOMEM w' /\
    ENOMEM <> 0 /\
    item_bytes (lastkey (w_cbt w')) = [] /\
    item_bytes (key (iface (w_cbt w'))) = [x61].
Proof.
  eexists. repeat apply conj; [lazy; reflexivity | | reflexivity..].
  unfold ENOMEM. lia.
Qed.

(** C1, refuted as stated: record 3 on the page holding records 10..14 is
    reported valid although it lies below the page's first record. *)
Lemma col_fix_lower_bound_not_checked :
  reports_valid __bt_col_fix_cursor_valid below_base_world /\
  ~ (ref_recno (ref (w_cbt below_base_world))
       <= recno (w_cbt below_base_world)
       < ref_recno (ref (w_cbt below_base_world))
         + entries (page (ref (w_cbt below_base_world)))).
Proof.
  split.
  - eexists. split; reflexivity.
  - cbn. lia.
Qed.

(** * Further properties of the code *)

Section MoreValidity.

Context {WT_SESSION_IMPL : Type} {E : Engine WT_SESSION_IMPL}.

Local Abbreviation world := (world WT_SESSION_IMPL).
Local Abbreviation M := (M WT_SESSION_IMPL).


Lemma I1_of_test (cbt : WT_CURSOR_BTREE) :
  (slot cbt =? UINT32_MAX) || (slot cbt <? entries (page (ref cbt))) = true ->
  I1 cbt.
Proof.
  intros H. apply orb_true_iff in H. destruct H as [H|H].
  - left. apply Z.eqb_eq. exact H.
  - right. apply Z.ltb_lt. exact H.
Qed.


(** X2: the column checks never consult the visibility resolver.  The row
    check consults it at most once, for the chain at the cursor's slot and
    only when there is no insert node; a return code other than 0 is the
    code the resolver gave for that chain. *)
Theorem resolver_consulted_for_slot_chain_only :
  forall (w : world) r w',
    (__bt_col_fix_cursor_valid w = Returns r w' \/
     __bt_col_var_cursor_valid w = Returns r w' ->
     w_txn_reads w' = w_txn_reads w) /\
    (__bt_row_cursor_valid w = Returns r w' ->
     (r = 0 /\ w_txn_reads w' = w_txn_reads w) \/
     (exists pmod upds chain,
         ins (w_cbt w) = None /\
         modify (page (ref (w_cbt w))) = Some pmod /\
         mod_row_update pmod = Some upds /\
         lookup upds (slot (w_cbt w)) = Some chain /\
         fst (__wt_txn_read (w_session w) chain) = r /\
         w_txn_reads w' = chain :: w_txn_reads w)).
Proof.
  intros [s c u v reads] r w'. split.
  - intros [Hrun|Hrun]; run_code; cbn in Hrun; case_tests; reflexivity.
  - intros Hrun. run_code. cbn in Hrun.
    destruct (ins c) as [i|] eqn:Hins; cbn in Hrun.
    + case_tests; left; split; reflexivity.
    + case_tests; cbn;
        try (left; split; reflexivity);
        right; do 3 eexists; cbn;
        repeat split; try eassumption; try reflexivity;
        try (rewrite Hp; cbn);
        try (apply negb_false_iff, Z.eqb_eq in Hb1; subst; reflexivity);
        try (destruct u; reflexivity); reflexivity.
Qed.

(** X3: in the variable-length column check the on-page-match flag makes
    the insert node irrelevant: with the flag set, the check is observed
    as it is on the same cursor without insert node. *)
Theorem onpage_match_overrides_insert_node :
  forall w : world,
    F_ISSET (w_cbt w) WT_CBT_VAR_ONPAGE_MATCH = true ->
    observation (__bt_col_var_cursor_valid w)
    = observation
        (__bt_col_var_cursor_valid (put_cbt (set_ins None (w_cbt w)) w)).
Proof.
  intros [s c u v reads]. cbn [w_cbt].
  destruct c as [i r sl n h rc lsr ris lk lr fl].
  unfold F_ISSET. cbn [flags]. intros Hflag.
  run_code. unfold F_ISSET, set_ins. cbn. rewrite Hflag.
  rewrite andb_false_r. cbn.
  destruct (entries (page r) =? 0); [reflexivity|].
  destruct ((sl =? UINT32_MAX) || (sl <? entries (page r)));
    cbn; [|reflexivity].
  destruct (lookup (pg_var (page r)) sl) as [cip|]; cbn; [|reflexivity].
  destruct (__wt_cell_type (WT_COL_PTR (page r) cip) =? WT_CELL_DEL);
    reflexivity.
Qed.

End MoreValidity.

Section MoreSetup.

Context {WT_SESSION_IMPL : Type} {E : Engine WT_SESSION_IMPL}.

Local Abbreviation world := (world WT_SESSION_IMPL).
Local Abbreviation M := (M WT_SESSION_IMPL).

Lemma land_lor_same (f m : Z) : Z.land (Z.lor f m) m = m.
Proof.
  apply Z.bits_inj'. intros n _.
  rewrite Z.land_spec, Z.lor_spec.
  destruct (Z.testbit f n), (Z.testbit m n); reflexivity.
Qed.

Lemma land_lor_disjoint (f m mask : Z) :
  Z.land mask m = 0 -> Z.land (Z.lor f m) mask = Z.land f mask.
Proof.
  intros Hd. rewrite Z.land_lor_distr_l.
  rewrite (Z.land_comm m mask), Hd. apply Z.lor_0_r.
Qed.

Lemma col_iterate_setup_run (w : world) :
  __bt_col_cursor_iterate_setup w
  = Returns tt
      (put_cbt
         (let c := set_last_standard_recno (page_last_recno (w_cbt w))
                     (w_cbt w) in
          if traversing_append (w_cbt w) then F_SET c WT_CBT_ITERATE_APPEND
          else c) w).
Proof.
  destruct w as [s c u v reads].
  destruct c as [i r sl n h rc lsr ris lk lr fl].
  reflexivity.
Qed.

(** X4: the column iteration set-up returns; it stores the page's last
    record number, sets the append flag when the cursor is on the page's
    append list and never clears it, and leaves every other flag and every
    other field of the cursor alone. *)
Theorem col_iterate_setup_effect :
  forall w : world,
    exists w',
      __bt_col_cursor_iterate_setup w = Returns tt w' /\
      let c := w_cbt w in
      let c' := w_cbt w' in
      last_standard_recno c' = page_last_recno c /\
      (WT_CBT_ITERATE_APPEND <> 0 ->
       F_ISSET c' WT_CBT_ITERATE_APPEND
       = F_ISSET c WT_CBT_ITERATE_APPEND || traversing_append c) /\
      (forall mask, Z.land mask WT_CBT_ITERATE_APPEND = 0 ->
                    F_ISSET c' mask = F_ISSET c mask) /\
      set_flags (flags c) (set_last_standard_recno (last_standard_recno c) c')
      = c /\
      w' = put_cbt c' w.
Proof.
  intros w. rewrite col_iterate_setup_run.
  eexists. split; [reflexivity|].
  destruct w as [s c u v reads].
  destruct c as [i r sl n h rc lsr ris lk lr fl].
  cbv zeta. cbn [w_cbt put_cbt].
  destruct (traversing_append _) eqn:Happ; unfold F_SET, F_ISSET; cbn.
  - repeat split.
    + intros Hm. rewrite land_lor_same.
      apply Z.eqb_neq in Hm. rewrite Hm. cbn. rewrite orb_true_r.
      reflexivity.
    + intros mask Hd. rewrite land_lor_disjoint by exact Hd. reflexivity.
  - repeat split. intros _. rewrite orb_false_r. reflexivity.
Qed.

(** X5: both iteration set-ups are idempotent: a second call changes
    nothing. *)
Theorem iterate_setup_idempotent :
  forall w : world,
    (__bt_col_cursor_iterate_setup ;;; __bt_col_cursor_iterate_setup) w
    = __bt_col_cursor_iterate_setup w /\
    (__bt_row_cursor_iterate_setup ;;; __bt_row_cursor_iterate_setup) w
    = __bt_row_cursor_iterate_setup w.
Proof.
  intros w. unfold bind. split.
  - rewrite (col_iterate_setup_run w), col_iterate_setup_run.
    destruct w as [s c u v reads].
    destruct c as [i r sl n h rc lsr ris lk lr fl].
    cbv zeta. cbn [w_cbt put_cbt].
    assert (Happ : forall c' : WT_CURSOR_BTREE,
               ins_head c' = h -> ref c' = r ->
               traversing_append c'
               = traversing_append (mkCbt i r sl n h rc lsr ris lk lr fl)).
    { intros c' Hh Hr. unfold traversing_append. rewrite Hh, Hr.
      reflexivity. }
    destruct (traversing_append (mkCbt i r sl n h rc lsr ris lk lr fl))
      eqn:Ht.
    + rewrite Happ by reflexivity. unfold F_SET, page_last_recno. cbn.
      rewrite <- Z.lor_assoc, Z.lor_diag. reflexivity.
    + rewrite Happ by reflexivity. reflexivity.
  - rewrite (row_iterate_setup_run w), row_iterate_setup_run.
    destruct w as [s c u v reads].
    destruct c as [i r sl n h rc lsr ris lk lr fl].
    reflexivity.
Qed.

End MoreSetup.

Section SetupThenCheck.

Context {WT_SESSION_IMPL : Type} {E : Engine WT_SESSION_IMPL}.

Local Abbreviation world := (world WT_SESSION_IMPL).
Local Abbreviation M := (M WT_SESSION_IMPL).

(** X6: the iteration set-ups do not change what the validity checks
    report: a check that follows the set-up of its layout is observed as
    the check alone is (for the variable-length column check, the
    on-page-match flag and the append flag being different bits). *)
Theorem iterate_setup_keeps_validity :
  forall w : world,
    observation ((__bt_row_cursor_iterate_setup ;;; __bt_row_cursor_valid) w)
    = observation (__bt_row_cursor_valid w) /\
    observation
      ((__bt_col_cursor_iterate_setup ;;; __bt_col_fix_cursor_valid) w)
    = observation (__bt_col_fix_cursor_valid w) /\
    (Z.land WT_CBT_VAR_ONPAGE_MATCH WT_CBT_ITERATE_APPEND = 0 ->
     observation
       ((__bt_col_cursor_iterate_setup ;;; __bt_col_var_cursor_valid) w)
     = observation (__bt_col_var_cursor_valid w)).
Proof.
  intros w. unfold bind.
  rewrite row_iterate_setup_run, col_iterate_setup_run.
  destruct w as [s c [u|] v reads];
    destruct c as [i r sl n h rc lsr ris lk lr fl];
    cbv zeta; cbn [w_cbt put_cbt].
  all: repeat apply conj.
  all: try (run_code; cbn; split_tests; reflexivity).
  all: try (destruct (traversing_append _); run_code; unfold F_SET; cbn;
            split_tests; reflexivity).
  all: intros Hbits.
  all: destruct (traversing_append _); run_code;
    unfold F_SET, F_ISSET; cbn;
    rewrite ?land_lor_disjoint by exact Hbits;
    split_tests; reflexivity.
Qed.

End SetupThenCheck.

Section MoreRowSetup.

Context {WT_SESSION_IMPL : Type} {E : Engine WT_SESSION_IMPL}.

Local Abbreviation world := (world WT_SESSION_IMPL).

Lemma sets_logical_slot_value (w : world) (n : Z) :
  sets_logical_slot w n ->
  n = wrap32 (logical_slot_of (position_of (w_cbt w))).
Proof.
  unfold sets_logical_slot. rewrite row_iterate_setup_run.
  intros [w' [H Hn]]. inversion H; subst. reflexivity.
Qed.

(** X7: for slots below 2^31 - 1 the position can be read back from the
    logical slot the row set-up stores: the value is 1 exactly for the
    smallest-key insert list; any other value n is at least 2, is odd
    exactly for an insert list, and n / 2 - 1 is the cursor's slot. *)
Theorem position_read_back_from_logical_slot :
  forall (w : world) (n : Z),
    let c := w_cbt w in
    0 <= slot c < 2 ^ 31 - 1 ->
    sets_logical_slot w n ->
    (n = 1 <-> position_of c = SmallestInsertList) /\
    (n <> 1 ->
     2 <= n /\ n / 2 - 1 = slot c /\ Z.odd n = is_some (ins_head c)).
Proof.
  intros w n c Hs Hn. apply sets_logical_slot_value in Hn. fold c in Hn.
  rewrite logical_slot_no_wrap in Hn by exact Hs.
  unfold position_of in *.
  destruct (ins_head c) as [h|]; cbn [is_some];
    [destruct (ptr_eqb _ _)|]; cbn in Hn; subst n.
  - split; [split; reflexivity | intros H; exfalso; apply H; reflexivity].
  - split; [split; [lia | discriminate]|]. intros _.
    split; [lia|]. split.
    + rewrite Z.add_comm, Z.div_add by lia. cbn. lia.
    + rewrite Z.add_comm, Z.mul_comm. apply Z.odd_add_mul_2.
  - split; [split; [lia | discriminate]|]. intros _.
    split; [lia|]. split.
    + rewrite Z.div_mul by lia. lia.
    + rewrite Z.odd_mul. apply andb_false_r.
Qed.

(** X8: with the sentinel slot the row set-up stores logical slot 0 when
    the cursor has no insert list and 1 when it has one, whichever list it
    is: every insert list then looks like the smallest-key list. *)
Theorem sentinel_slot_logical_slot :
  forall w : world,
    slot (w_cbt w) = UINT32_MAX ->
    sets_logical_slot w (if is_some (ins_head (w_cbt w)) then 1 else 0).
Proof.
  intros w Hs. unfold sets_logical_slot. rewrite row_iterate_setup_run.
  eexists. split; [reflexivity|]. cbn.
  unfold position_of. rewrite Hs.
  destruct (ins_head (w_cbt w)) as [h|]; cbn [is_some];
    [destruct (ptr_eqb _ _)|]; reflexivity.
Qed.

End MoreRowSetup.

Section Traversals.

Context {WT_SESSION_IMPL : Type} {E : Engine WT_SESSION_IMPL}.

Local Abbreviation world := (world WT_SESSION_IMPL).
Local Abbreviation M := (M WT_SESSION_IMPL).


Lemma col_step_passes (next : bool) (r : Z) (w : world) :
  lastrecno (w_cbt w) = WT_RECNO_OOB \/
  precedes next (lastrecno (w_cbt w)) r ->
  (move_to_recno r ;;; __bt_col_cursor_key_order_check next) w
  = Returns 0 (arrived_at r w).
Proof.
  intros H. unfold bind, move_to_recno, modify_world.
  rewrite col_check_in_order.
  - destruct w as [s c u v reads]; destruct c; reflexivity.
  - destruct w as [s c u v reads]; destruct c; cbn in *.
    unfold col_in_order, precedes in *. cbn.
    destruct H as [H|H]; [left; exact H|].
    destruct next; [right; left | right; right]; split; auto.
Qed.






End Traversals.

Section Baselines.

Context {WT_SESSION_IMPL : Type} {E : Engine WT_SESSION_IMPL}.

Local Abbreviation world := (world WT_SESSION_IMPL).
Local Abbreviation M := (M WT_SESSION_IMPL).

Lemma col_init_run (w : world) :
  __bt_col_cursor_key_order_init w
  = Returns 0 (put_cbt (set_lastrecno (recno (w_cbt w)) (w_cbt w)) w).
Proof. reflexivity. Qed.

Lemma row_init_run (w : world) :
  __bt_row_cursor_key_order_init w
  = Returns
      (fst (__wt_buf_set (w_session w) (lastkey (w_cbt w))
              (data (key (iface (w_cbt w)))) (size (key (iface (w_cbt w))))))
      (put_cbt
         (set_lastkey
            (snd (__wt_buf_set (w_session w) (lastkey (w_cbt w))
                    (data (key (iface (w_cbt w))))
                    (size (key (iface (w_cbt w))))))
            (w_cbt w)) w).
Proof. reflexivity. Qed.

Lemma col_check_without_baseline (next : bool) (w : world) :
  lastrecno (w_cbt w) = WT_RECNO_OOB ->
  __bt_col_cursor_key_order_check next w = __bt_col_cursor_key_order_init w.
Proof.
  intros H. rewrite col_init_run. apply col_check_in_order. left. exact H.
Qed.

Lemma row_check_without_baseline (next : bool) (w : world) :
  size (lastkey (w_cbt w)) = 0 ->
  __bt_row_cursor_key_order_check next w = __bt_row_cursor_key_order_init w.
Proof.
  intros H. rewrite row_init_run. apply row_check_in_order.
  - intros Hne. contradiction.
  - left. exact H.
Qed.

(** X10: with no baseline a check is the init of its layout, whatever
    the direction: the column check when [lastrecno] is WT_RECNO_OOB, the
    row check when [lastkey] has size 0. *)
Theorem check_without_baseline_is_init :
  forall (next : bool) (w : world),
    (lastrecno (w_cbt w) = WT_RECNO_OOB ->
     __bt_col_cursor_key_order_check next w
     = __bt_col_cursor_key_order_init w) /\
    (size (lastkey (w_cbt w)) = 0 ->
     __bt_row_cursor_key_order_check next w
     = __bt_row_cursor_key_order_init w).
Proof.
  intros next w. split.
  - apply col_check_without_baseline.
  - apply row_check_without_baseline.
Qed.

(** X11: a check that follows init with the cursor where it was takes the
    fatal path in either direction: in the column store whenever the record
    number is not WT_RECNO_OOB; in the row store whenever the key is not
    empty, the copy succeeded, the collator finds the copy equal to the key
    and both scratch buffers are allocated. *)
Theorem check_right_after_init_is_fatal :
  forall (next : bool) (w : world),
    let s := w_session w in
    let c := w_cbt w in
    let k := key (iface c) in
    let installed := __wt_buf_set s (lastkey c) (data k) (size k) in
    let first_alloc := __wt_scr_alloc s 512 in
    let second_alloc := __wt_scr_alloc (snd first_alloc) 512 in
    (recno c <> WT_RECNO_OOB ->
     (__bt_col_cursor_key_order_init ;;;
      __bt_col_cursor_key_order_check next) w
     = order_violation next (DiagRecno (recno c)) (DiagRecno (recno c))) /\
    (size k <> 0 -> fst installed = 0 ->
     __wt_compare s (collator (S2BT s)) (snd installed) k = (0, 0) ->
     fst (fst first_alloc) = 0 -> fst (fst second_alloc) = 0 ->
     exists previous current,
       (__bt_row_cursor_key_order_init ;;;
        __bt_row_cursor_key_order_check next) w
       = order_violation next (DiagKey previous) (DiagKey current)).
Proof.
  intros next [s [[k] r sl n h rc lsr ris lk lr fl] u v reads].
  cbv zeta. cbn [w_session w_cbt key iface lastkey recno].
  split.
  - intros Hr. unfold bind. rewrite col_init_run.
    rewrite col_check_out_of_order; [reflexivity|].
    unfold col_in_order. cbn.
    intros [Hx|[[_ Hx]|[_ Hx]]]; [exact (Hr Hx) | lia | lia].
  - intros Hk Hok Hcmp Ha Hb. unfold bind. rewrite row_init_run.
    cbn [w_session w_cbt key iface lastkey put_cbt].
    destruct (buf_set_installs s lk (data k) (size k) Hok) as [Hsize _].
    rewrite row_check_out_of_order.
    + do 2 eexists. reflexivity.
    + cbn. rewrite Hsize. exact Hk.
    + cbn. rewrite Hcmp. reflexivity.
    + cbn. rewrite Hcmp. unfold row_in_order. cbn. rewrite Hsize.
      intros [Hx|[[_ Hx]|[_ Hx]]]; [exact (Hk Hx) | lia | lia].
    + exact Ha.
    + exact Hb.
Qed.

(** X12: a position whose record number is WT_RECNO_OOB, or whose key is
    empty, leaves no baseline behind: after init there, the check that
    follows the next move passes in the column store wherever the cursor
    went, and in the row store (the copy of the empty key succeeding) is
    again an init, whatever the key and the direction. *)
Theorem init_at_out_of_band_position_sets_no_baseline :
  forall (next : bool) (w : world),
    let s := w_session w in
    let c := w_cbt w in
    let k := key (iface c) in
    let installed := __wt_buf_set s (lastkey c) (data k) (size k) in
    (recno c = WT_RECNO_OOB ->
     forall r,
       (__bt_col_cursor_key_order_init ;;; move_to_recno r ;;;
        __bt_col_cursor_key_order_check next) w
       = Returns 0 (arrived_at r w)) /\
    (size k = 0 -> fst installed = 0 ->
     forall k',
       (__bt_row_cursor_key_order_init ;;; move_to_key k' ;;;
        __bt_row_cursor_key_order_check next) w
       = (__bt_row_cursor_key_order_init ;;; move_to_key k' ;;;
          __bt_row_cursor_key_order_init) w).
Proof.
  intros next [s [[k] r sl n h rc lsr ris lk lr fl] u v reads].
  cbv zeta. cbn [w_session w_cbt key iface lastkey recno].
  split.
  - intros Hoob r0. unfold bind at 1. rewrite col_init_run.
    rewrite col_step_passes; [reflexivity|].
    left. exact Hoob.
  - intros Hk Hok k'.
    destruct (buf_set_installs s lk (data k) (size k) Hok) as [Hsize _].
    unfold bind, move_to_key, modify_world. rewrite row_init_run.
    apply row_check_without_baseline.
    cbn. rewrite Hsize. exact Hk.
Qed.

End Baselines.

(** * The further properties at work on the small engine *)


(** X2 at work: the row check on slot 1 returns 0, having consulted the
    resolver on the chain of slot 1. *)
Lemma resolver_consulted_for_slot_chain_only_witness :
  (0 = 0 /\
   w_txn_reads (log_txn_read (Some upd_removed) (row_world row_page 1 None))
   = w_txn_reads (row_world row_page 1 None)) \/
  (exists pmod upds chain,
      ins (w_cbt (row_world row_page 1 None)) = None /\
      modify (page (ref (w_cbt (row_world row_page 1 None)))) = Some pmod /\
      mod_row_update pmod = Some upds /\
      lookup upds (slot (w_cbt (row_world row_page 1 None))) = Some chain /\
      fst (__wt_txn_read (Engine := demo_engine)
             (w_session (row_world row_page 1 None)) chain) = 0 /\
      w_txn_reads
        (log_txn_read (Some upd_removed) (row_world row_page 1 None))
      = chain :: w_txn_reads (row_world row_page 1 None)).
Proof.
  destruct (resolver_consulted_for_slot_chain_only (E := demo_engine)
              (row_world row_page 1 None) 0
              (log_txn_read (Some upd_removed) (row_world row_page 1 None)))
    as [_ H].
  apply H. reflexivity.
Defined.

(** X3 at work: slot 0 with an insert node and the on-page-match flag is
    observed as slot 0 without insert node. *)
Lemma onpage_match_overrides_insert_node_witness :
  observation (__bt_col_var_cursor_valid (E := demo_engine)
                 (var_world 0 (Some 7) 512))
  = observation (__bt_col_var_cursor_valid (E := demo_engine)
                   (var_world 0 None 512)).
Proof.
  apply (onpage_match_overrides_insert_node (E := demo_engine)
           (var_world 0 (Some 7) 512)).
  reflexivity.
Defined.

(** X4 at work: on the append list the set-up sets the append flag (4)
    beside the on-page-match flag (512) and stores record 3 as the last
    record of the page. *)
Lemma col_iterate_setup_effect_witness :
  exists w',
    __bt_col_cursor_iterate_setup (E := demo_engine)
      (append_world (Some 2000) 512)
    = Returns tt w' /\
    last_standard_recno (w_cbt w') = 3 /\
    F_ISSET (w_cbt w') 4 = true /\
    F_ISSET (w_cbt w') 512 = true.
Proof.
  destruct (col_iterate_setup_effect (E := demo_engine)
              (append_world (Some 2000) 512))
    as [w' [Hrun [Hlast [Happ [Hother _]]]]].
  exists w'. repeat apply conj.
  - exact Hrun.
  - exact Hlast.
  - apply Happ. cbn. lia.
  - apply (Hother 512). reflexivity.
Defined.

(** X6 at work: with the demo engine's flag bits (512 and 4) the
    variable-length column check is observed alike before and after the
    set-up. *)
Lemma iterate_setup_keeps_validity_witness :
  observation
    ((__bt_col_cursor_iterate_setup (E := demo_engine) ;;;
      __bt_col_var_cursor_valid (E := demo_engine))
       (append_world (Some 2000) 512))
  = observation (__bt_col_var_cursor_valid (E := demo_engine)
                   (append_world (Some 2000) 512)).
Proof.
  destruct (iterate_setup_keeps_validity (E := demo_engine)
              (append_world (Some 2000) 512)) as [_ [_ H]].
  apply H. reflexivity.
Defined.

(** X7 at work: the insert list after slot 3 gets logical slot 9, from
    which slot 3 is read back. *)
Lemma position_read_back_from_logical_slot_witness :
  sets_logical_slot (E := demo_engine) (list_world 3 (Some 1234)) 9 /\
  9 / 2 - 1 = slot (w_cbt (list_world 3 (Some 1234))) /\
  Z.odd 9 = is_some (ins_head (w_cbt (list_world 3 (Some 1234)))).
Proof.
  assert (Hset : sets_logical_slot (E := demo_engine)
                   (list_world 3 (Some 1234)) 9)
    by (eexists; split; [lazy; reflexivity | reflexivity]).
  destruct (position_read_back_from_logical_slot (E := demo_engine)
              (list_world 3 (Some 1234)) 9) as [_ H];
    [cbn; lia | exact Hset |].
  destruct H as [_ [Hslot Hodd]]; [lia|].
  repeat apply conj; [exact Hset | exact Hslot | exact Hodd].
Defined.

(** X8 at work: with the sentinel slot the insert list at address 1234,
    which is not the smallest-key list, gets logical slot 1. *)
Lemma sentinel_slot_logical_slot_witness :
  sets_logical_slot (E := demo_engine)
    (list_world UINT32_MAX (Some 1234)) 1.
Proof.
  apply (sentinel_slot_logical_slot (E := demo_engine)
           (list_world UINT32_MAX (Some 1234))).
  reflexivity.
Defined.


(** X10 at work: without baseline, a backward check at record 7 and a
    forward check at key [a] are the inits. *)
Lemma check_without_baseline_is_init_witness :
  __bt_col_cursor_key_order_check (E := demo_engine) false (recno_world 0 7)
  = __bt_col_cursor_key_order_init (recno_world 0 7) /\
  __bt_row_cursor_key_order_check (E := demo_engine) true
    (key_world 2048 [] [x61])
  = __bt_row_cursor_key_order_init (E := demo_engine)
      (key_world 2048 [] [x61]).
Proof.
  split.
  - destruct (check_without_baseline_is_init (E := demo_engine) false
                (recno_world 0 7)) as [H _].
    apply H. reflexivity.
  - destruct (check_without_baseline_is_init (E := demo_engine) true
                (key_world 2048 [] [x61])) as [_ H].
    apply H. reflexivity.
Defined.

(** X11 at work: init and an immediate check at record 7, and at key
    [a], take the fatal path. *)
Lemma check_right_after_init_is_fatal_witness :
  (__bt_col_cursor_key_order_init ;;;
   __bt_col_cursor_key_order_check (E := demo_engine) true) (recno_world 0 7)
  = order_violation true (DiagRecno 7) (DiagRecno 7) /\
  exists previous current,
    (__bt_row_cursor_key_order_init (E := demo_engine) ;;;
     __bt_row_cursor_key_order_check (E := demo_engine) false)
      (key_world 2048 [] [x61])
    = order_violation false (DiagKey previous) (DiagKey current).
Proof.
  split.
  - destruct (check_right_after_init_is_fatal (E := demo_engine) true
                (recno_world 0 7)) as [H _].
    apply H. cbn. lia.
  - destruct (check_right_after_init_is_fatal (E := demo_engine) false
                (key_world 2048 [] [x61])) as [_ H].
    apply H; [cbn; lia | reflexivity | reflexivity | reflexivity
             | reflexivity].
Defined.

(** X12 at work: init at record 0 (the demo engine's WT_RECNO_OOB) with
    baseline 9 behind it, then a forward check at record 4; init at the
    empty key, then a forward check at key [a]. *)
Lemma init_at_out_of_band_position_sets_no_baseline_witness :
  (__bt_col_cursor_key_order_init ;;; move_to_recno 4 ;;;
   __bt_col_cursor_key_order_check (E := demo_engine) true) (recno_world 9 0)
  = Returns 0 (recno_world 4 4) /\
  exists w',
    (__bt_row_cursor_key_order_init (E := demo_engine) ;;;
     move_to_key (mkItem [x61] 1) ;;;
     __bt_row_cursor_key_order_check (E := demo_engine) true)
      (key_world 2048 [x62] [])
    = Returns 0 w' /\
    item_bytes (lastkey (w_cbt w')) = [x61].
Proof.
  split.
  - destruct (init_at_out_of_band_position_sets_no_baseline
                (E := demo_engine) true (recno_world 9 0)) as [H _].
    apply (H eq_refl 4).
  - destruct (init_at_out_of_band_position_sets_no_baseline
                (E := demo_engine) true (key_world 2048 [x62] []))
      as [_ H].
    rewrite (H eq_refl eq_refl (mkItem [x61] 1)).
    eexists. split; [lazy; reflexivity | reflexivity].
Defined.
